(** * The OdroidThings JNI shim
    (services/core/jni/com_google_android_things_odroidThingService.cpp)

    A shallow embedding of the native methods that forward the managed
    GPIO / PWM / I2C / UART / SPI calls to the IOdroidThings hardware
    service, of the lazily created service handle [sOdroidThings] and of
    the GPIO callback bridge [Callback].

    Conventions of the embedding:
    - [jint], [int32_t] and [int] are [Z]; the shim does no arithmetic on
      them besides the loop counter [i < length], which cannot wrap;
    - [jbyte] and [uint8_t] are [byte]: the C casts between them keep the
      bit pattern;
    - [sp<IOdroidThings>] is [option Handle], [nullptr] being [None];
    - the process is a state ([World]) threaded through every function;
      behaviour that C++ leaves undefined, and the aborts of the runtime
      libraries, end the run in [Crash]. *)

From Stdlib Require Import ZArith Lia Strings.Byte.
From stdpp Require Import base option list strings gmap.

Local Open Scope Z_scope.

(** ** JNI and HIDL data *)

Definition jint := Z.
Definition jboolean := bool.
Definition JNI_TRUE : jboolean := true.
Definition JNI_FALSE : jboolean := false.
(** A [jdouble] is only passed through: it is kept as its 64-bit pattern. *)
Definition jdouble := Z.
Definition jbyteArray := list byte.
Definition hidl_vec := list byte.

Definition JavaVM := nat.
Record JNIEnv := mkEnv { env_vm : JavaVM; env_thread : nat }.
Definition jclass := string.
Record jmethodID := mkMethod { m_class : jclass; m_name : string; m_sig : string }.

(** Identity of a live connection to the service (the pointee of the [sp]). *)
Definition Handle := nat.

(** Modelled from the spec: the [Result] enumeration of the service
    interface is declared outside this file; the shim only tells
    [Result::OK] from every other status. *)
Inductive Result := OK | NotOK (code : positive).

Definition Result_is_OK (r : Result) : bool :=
  match r with OK => true | NotOK _ => false end.

(** [Return<T>]: the value of a HIDL call, or a failed transport. *)
Inductive Return (A : Type) := ROk (a : A) | RTransportError.
Arguments ROk {A} a.
Arguments RTransportError {A}.

Definition isOk {A} (r : Return A) : bool :=
  match r with ROk _ => true | RTransportError => false end.

(** ** The callback bridge object *)

Record Callback := mkCallback {
  jvm : JavaVM;
  env : JNIEnv;
  pin : jint;
  thingsManagerClass : jclass;
  cb : jmethodID
}.

(** ** The operations of IOdroidThings the shim invokes *)

Inductive HalReq :=
| getPinNameList
| hal_getListOf (mode : jint)
| setDirection (pin : jint) (direction : jint)
| gpio_setValue (pin : jint) (value : bool)
| gpio_getValue (pin : jint)
| gpio_setActiveType (pin : jint) (activeType : jint)
| gpio_setEdgeTriggerType (pin : jint) (edgeTriggerType : jint)
| gpio_registerCallback (pin : jint) (callback : Callback)
| gpio_unregisterCallback (pin : jint)
| pwm_open (pin : jint)
| pwm_close (pin : jint)
| pwm_setEnable (pin : jint) (enabled : bool)
| pwm_setDutyCycle (pin : jint) (cycle_rate : jdouble)
| pwm_setFrequency (pin : jint) (frequency_hz : jdouble)
| i2c_open (nameIdx address idx : jint)
| i2c_close (idx : jint)
| i2c_readRegBuffer (idx reg len : jint)
| i2c_writeRegBuffer (idx reg : jint) (buffer : hidl_vec) (len : jint)
| uart_open (idx : jint)
| uart_close (idx : jint)
| uart_flush (idx direction : jint)
| uart_sendBreak (idx duration : jint)
| uart_setBaudrate (idx rate : jint)
| uart_setDataSize (idx size : jint)
| uart_setHardwareFlowControl (idx mode : jint)
| uart_setParity (idx mode : jint)
| uart_setStopBits (idx bits : jint)
| uart_read (idx len : jint)
| uart_write (idx : jint) (buffer : hidl_vec) (len : jint)
| spi_open (idx : jint)
| spi_close (idx : jint)
| spi_setBitJustification (idx justification : jint)
| spi_setBitsPerWord (idx bits : jint)
| spi_setMode (idx mode : jint)
| spi_setCsChange (idx : jint) (cs : bool)
| spi_setDelay (idx delay : jint)
| spi_setFrequency (idx frequency : jint)
| spi_read (idx len : jint)
| spi_transfer (idx : jint) (txBuffer : hidl_vec) (len : jint)
| spi_write (idx : jint) (txBuffer : hidl_vec) (len : jint).

(** What each operation delivers, as a value or through its result
    callback ([_hidl_cb]), when the transport succeeds. *)
Definition reply (r : HalReq) : Type :=
  match r with
  | getPinNameList | hal_getListOf _ => list string
  | gpio_getValue _
  | pwm_setEnable _ _ | pwm_setDutyCycle _ _ | pwm_setFrequency _ _
  | uart_flush _ _ | uart_sendBreak _ _ | uart_setBaudrate _ _
  | uart_setDataSize _ _ | uart_setHardwareFlowControl _ _
  | uart_setParity _ _ | uart_setStopBits _ _
  | spi_setBitJustification _ _ | spi_setBitsPerWord _ _ | spi_setMode _ _
  | spi_setCsChange _ _ | spi_setDelay _ _ | spi_setFrequency _ _
  | spi_write _ _ _ => bool
  | i2c_readRegBuffer _ _ _ => (Result * hidl_vec)%type
  | i2c_writeRegBuffer _ _ _ _ => Result
  | uart_read _ _ | spi_read _ _ | spi_transfer _ _ _ => (Z * hidl_vec)%type
  | uart_write _ _ _ => Z
  | _ => unit
  end.

(** ** Observable events and faults *)

Inductive Event :=
| EvGetService (result : option Handle)
| EvLogE (tag msg : string)
| EvHal (h : Handle) (r : HalReq)
| EvAttachCurrentThread (vm : JavaVM) (thread : nat)
| EvCallStaticVoidMethod (e : JNIEnv) (cls : jclass) (m : jmethodID) (arg : jint).

Inductive fault :=
| NullHandleDeref                      (* hal-> on a null sp *)
| OutOfBoundsRead (i size : nat)       (* src[i] with size <= i *)
| BadArrayLength (n : Z)               (* new T[n], hidl_vec(n) with n < 0 *)
| FailedReturnUnchecked.               (* libhidl aborts when a failed Return
                                          is dropped or read without isOk() *)

Definition LOG_TAG : string := "OdroidThings-JNI".


(** ** The process state

    [St] is the state of the world outside the process: the service
    manager and the hardware service. *)

Record World (St : Type) := mkWorld {
  sOdroidThings : option Handle;   (* OdroidThingHal::sOdroidThings *)
  svc : St;
  trace : list Event               (* what the process did, oldest first *)
}.
Arguments mkWorld {St} _ _ _.
Arguments sOdroidThings {St} _.
Arguments svc {St} _.
Arguments trace {St} _.

Inductive outcome (St A : Type) :=
| Done (a : A) (w : World St)
| Crash (f : fault) (w : World St).
Arguments Done {St A} a w.
Arguments Crash {St A} f w.

(** The world a run ends in, whether it returned or crashed. *)
Definition final {St A} (o : outcome St A) : World St :=
  match o with Done _ w => w | Crash _ w => w end.

Definition returned {St A} (o : outcome St A) : option A :=
  match o with Done a _ => Some a | Crash _ _ => None end.

(** * A simulated service

    Modelled from the spec: the hardware service and the service manager
    live outside this file; the testable properties speak of "a fake
    service" that stores what it is sent. This one keeps, per line, the
    registered callback, the bytes of each I2C register, the bytes queued
    on each UART port and the bytes held by each SPI device. *)

Module Fake.

Record state := mkState {
  coming : list (option Handle);   (* answers of the next getService calls *)
  transport_up : bool;             (* do calls reach the service? *)
  callbacks : gmap Z Callback;
  i2c_regs : gmap (Z * Z) (list byte);
  uart_fifo : gmap Z (list byte);
  spi_mem : gmap Z (list byte)
}.

Definition getService (s : state) : option Handle * state :=
  match coming s with
  | [] => (None, s)
  | h :: rest =>
      (h, mkState rest (transport_up s) (callbacks s) (i2c_regs s)
                  (uart_fifo s) (spi_mem s))
  end.

Definition set_callbacks (s : state) (m : gmap Z Callback) : state :=
  mkState (coming s) (transport_up s) m (i2c_regs s) (uart_fifo s) (spi_mem s).
Definition set_i2c (s : state) (m : gmap (Z * Z) (list byte)) : state :=
  mkState (coming s) (transport_up s) (callbacks s) m (uart_fifo s) (spi_mem s).
Definition set_uart (s : state) (m : gmap Z (list byte)) : state :=
  mkState (coming s) (transport_up s) (callbacks s) (i2c_regs s) m (spi_mem s).
Definition set_spi (s : state) (m : gmap Z (list byte)) : state :=
  mkState (coming s) (transport_up s) (callbacks s) (i2c_regs s) (uart_fifo s) m.

Definition i2c_read (s : state) (idx reg len : Z) : Result * hidl_vec :=
  match i2c_regs s !! (idx, reg) with
  | Some d =>
      if (0 <=? len) && (len <=? Z.of_nat (length d))
      then (OK, take (Z.to_nat len) d)
      else (NotOK 1, [])
  | None => (NotOK 1, [])
  end.

Definition answer (r : HalReq) (s : state) : reply r * state :=
  match r as r0 return reply r0 * state with
  | getPinNameList | hal_getListOf _ => ([], s)
  | gpio_getValue _
  | pwm_setEnable _ _ | pwm_setDutyCycle _ _ | pwm_setFrequency _ _
  | uart_flush _ _ | uart_sendBreak _ _ | uart_setBaudrate _ _
  | uart_setDataSize _ _ | uart_setHardwareFlowControl _ _
  | uart_setParity _ _ | uart_setStopBits _ _
  | spi_setBitJustification _ _ | spi_setBitsPerWord _ _ | spi_setMode _ _
  | spi_setCsChange _ _ | spi_setDelay _ _ | spi_setFrequency _ _ => (true, s)
  | gpio_registerCallback pin callback =>
      (tt, set_callbacks s (<[pin := callback]> (callbacks s)))
  | gpio_unregisterCallback pin =>
      (tt, set_callbacks s (delete pin (callbacks s)))
  | i2c_readRegBuffer idx reg len => (i2c_read s idx reg len, s)
  | i2c_writeRegBuffer idx reg buffer len =>
      (OK, set_i2c s (<[(idx, reg) := take (Z.to_nat len) buffer]> (i2c_regs s)))
  | uart_read idx len =>
      let queue := default [] (uart_fifo s !! idx) in
      let got := take (Z.to_nat len) queue in
      ((Z.of_nat (length got), got),
       set_uart s (<[idx := drop (Z.to_nat len) queue]> (uart_fifo s)))
  | uart_write idx buffer len =>
      let queue := default [] (uart_fifo s !! idx) in
      let sent := take (Z.to_nat len) buffer in
      (Z.of_nat (length sent), set_uart s (<[idx := queue ++ sent]> (uart_fifo s)))
  | spi_read idx len =>
      let got := take (Z.to_nat len) (default [] (spi_mem s !! idx)) in
      ((Z.of_nat (length got), got), s)
  | spi_transfer idx txBuffer len =>
      let got := take (Z.to_nat len) (default [] (spi_mem s !! idx)) in
      ((Z.of_nat (length got), got),
       set_spi s (<[idx := take (Z.to_nat len) txBuffer]> (spi_mem s)))
  | spi_write idx txBuffer len =>
      (true, set_spi s (<[idx := take (Z.to_nat len) txBuffer]> (spi_mem s)))
  | setDirection _ _ | gpio_setValue _ _ | gpio_setActiveType _ _
  | gpio_setEdgeTriggerType _ _ | pwm_open _ | pwm_close _
  | i2c_open _ _ _ | i2c_close _ | uart_open _ | uart_close _
  | spi_open _ | spi_close _ => (tt, s)
  end.

Definition serve (h : Handle) (r : HalReq) (s : state) : Return (reply r) * state :=
  if transport_up s
  then (ROk (answer r s).1, (answer r s).2)
  else (RTransportError, s).

(** Service states and processes used in the examples. *)
Definition fresh (coming : list (option Handle)) : state :=
  mkState coming true ∅ ∅ ∅ ∅.

(** A process that has not acquired the handle yet. *)
Definition start (s : state) : World state := mkWorld None s [].

(** A process holding connection [h]. *)
Definition live (h : Handle) (s : state) : World state := mkWorld (Some h) s [].

End Fake.

(** Service states and processes used in the examples. *)

(** A process holding connection 1 to a service with nothing stored. *)
Definition holding : World Fake.state := Fake.live 1%nat (Fake.fresh []).

(** The same process after the service has seen request [r]. *)
Definition after (r : HalReq) : World Fake.state :=
  mkWorld (Some 1%nat) (Fake.fresh []) [EvHal 1%nat r].

(** A device on bus 0 holding three bytes. *)
Definition spi_loaded : Fake.state :=
  Fake.set_spi (Fake.fresh []) {[ 0 := [x0a; x0b; x0c] ]}.

(** A second simulated service, which answers the reads and writes with
    whatever it was set up to answer. *)
Module Canned.

Record state := mkState {
  up : bool;
  names : list string;
  i2c_reply : Result * hidl_vec;
  uart_reply : Z * hidl_vec;
  spi_reply : Z * hidl_vec;
  i2c_written : Result;
  uart_written : Z;
  spi_written : bool
}.

Definition answer (r : HalReq) (s : state) : reply r :=
  match r as r0 return reply r0 with
  | getPinNameList | hal_getListOf _ => names s
  | gpio_getValue _
  | pwm_setEnable _ _ | pwm_setDutyCycle _ _ | pwm_setFrequency _ _
  | uart_flush _ _ | uart_sendBreak _ _ | uart_setBaudrate _ _
  | uart_setDataSize _ _ | uart_setHardwareFlowControl _ _
  | uart_setParity _ _ | uart_setStopBits _ _
  | spi_setBitJustification _ _ | spi_setBitsPerWord _ _ | spi_setMode _ _
  | spi_setCsChange _ _ | spi_setDelay _ _ | spi_setFrequency _ _ => true
  | i2c_readRegBuffer _ _ _ => i2c_reply s
  | i2c_writeRegBuffer _ _ _ _ => i2c_written s
  | uart_read _ _ => uart_reply s
  | uart_write _ _ _ => uart_written s
  | spi_read _ _ | spi_transfer _ _ _ => spi_reply s
  | spi_write _ _ _ => spi_written s
  | setDirection _ _ | gpio_setValue _ _ | gpio_setActiveType _ _
  | gpio_setEdgeTriggerType _ _ | gpio_registerCallback _ _
  | gpio_unregisterCallback _ | pwm_open _ | pwm_close _
  | i2c_open _ _ _ | i2c_close _ | uart_open _ | uart_close _
  | spi_open _ | spi_close _ => tt
  end.

Definition serve (h : Handle) (r : HalReq) (s : state) : Return (reply r) * state :=
  if up s then (ROk (answer r s), s) else (RTransportError, s).

Definition getService (s : state) : option Handle * state := (Some 1%nat, s).

(** A process holding connection 1 to the service in state [s]. *)
Definition live (s : state) : World state := mkWorld (Some 1%nat) s [].

(** Two names; three register bytes under [OK]; five bytes waiting on
    the port; a failed I2C write, two bytes sent, an SPI write refused. *)
Definition ready : state :=
  mkState true ["GPIO1"; "I2C-1"]
          (OK, [x0a; x0b; x0c])
          (5, [x01; x02; x03; x04; x05])
          (3, [x0a; x0b; x0c])
          (NotOK 2) 2 false.

(** The service reporting four bytes and delivering none. *)
Definition overstating : state :=
  mkState true [] (OK, []) (4, []) (4, []) OK 0 true.

(** No call gets through. *)
Definition down : state :=
  mkState false [] (OK, []) (0, []) (0, []) OK 0 true.

End Canned.

(** A service manager that never answers. *)
Definition never_up (s : unit) : option Handle * unit := (None, s).

(** * The native methods *)

Section Shim.

(** [getService] is [IOdroidThings::getService()]; [serve h r] is the
    service executing request [r] received over connection [h]. *)
Variable St : Type.
Variable getService : St -> option Handle * St.
Variable serve : Handle -> forall r : HalReq, St -> Return (reply r) * St.

Definition M (A : Type) := World St -> outcome St A.

Definition ret {A} (a : A) : M A := fun w => Done a w.

Definition bind {A B} (m : M A) (k : A -> M B) : M B :=
  fun w => match m w with
           | Done a w' => k a w'
           | Crash f w' => Crash f w'
           end.

Notation "x <- m ;; k" := (bind m (fun x => k))
  (at level 90, m at next level, right associativity).
Notation "m ;;; k" := (bind m (fun _ => k))
  (at level 90, right associativity).

Definition crash {A} (f : fault) : M A := fun w => Crash f w.

Definition emit (e : Event) : M unit :=
  fun w => Done tt (mkWorld (sOdroidThings w) (svc w) (trace w ++ [e])).

Definition ALOGE (msg : string) : M unit := emit (EvLogE LOG_TAG msg).

(** ** class OdroidThingHal *)

Definition disassociate : M unit :=
  fun w => Done tt (mkWorld None (svc w) (trace w)).

Definition call_getService : M (option Handle) :=
  fun w => let '(h, s') := getService (svc w) in
           Done h (mkWorld (sOdroidThings w) s' (trace w ++ [EvGetService h])).

Definition set_sOdroidThings (h : option Handle) : M unit :=
  fun w => Done tt (mkWorld h (svc w) (trace w)).

Definition get_sOdroidThings : M (option Handle) :=
  fun w => Done (sOdroidThings w) w.

Definition associate : M (option Handle) :=
  cur <- get_sOdroidThings ;;
  (match cur with
   | None =>
       h <- call_getService ;;
       set_sOdroidThings h ;;;
       cur' <- get_sOdroidThings ;;
       match cur' with
       | None => ALOGE "Unable to get IOdroidThings interface."
       | Some _ => ret tt
       end
   | Some _ => ret tt
   end) ;;;
  get_sOdroidThings.

(** ** Calling through the handle *)

(** [hal->r(...)]: dereferencing a null [sp] is undefined. *)
Definition invoke (hal : option Handle) (r : HalReq) : M (Return (reply r)) :=
  match hal with
  | None => crash NullHandleDeref
  | Some h =>
      fun w => let '(res, s') := serve h r (svc w) in
               Done res (mkWorld (sOdroidThings w) s' (trace w ++ [EvHal h r]))
  end.

(** A [Return] whose status was never looked at: its destructor aborts
    the process when the transport failed. *)
Definition discard {A} (r : Return A) : M unit :=
  match r with ROk _ => ret tt | RTransportError => crash FailedReturnUnchecked end.

(** The implicit conversion [Return<T> -> T] asserts the status. *)
Definition value {A} (r : Return A) : M A :=
  match r with ROk a => ret a | RTransportError => crash FailedReturnUnchecked end.

(** ** Buffers *)

(** [new uint8_t[n]] and [hidl_vec<uint8_t> v(n)] for a signed [n]. The
    vector is value-initialised; the contents of the raw array are
    indeterminate, but every cell is written before it is read. *)
Definition alloc (n : Z) : M (list byte) :=
  if n <? 0 then crash (BadArrayLength n)
  else ret (replicate (Z.to_nat n) x00).

(** [for (int i = i0; i < i0 + todo; i++) dst[i] = src[i];] with the
    unchecked [operator[]] of [hidl_vec] and of a raw pointer on [src].
    [OutOfBoundsRead] marks the first read outside [src], where C++
    leaves the behaviour undefined. At an empty [hidl_vec] the data
    pointer is null and the read faults; past the end of a non-empty
    source a run may find adjacent memory and go on. What is stated
    about a [Crash] of this loop is stated at the empty vector. *)
Fixpoint copy_loop (src : list byte) (i todo : nat) (dst : list byte)
  : fault + list byte :=
  match todo with
  | O => inr dst
  | S k =>
      match src !! i with
      | None => inl (OutOfBoundsRead i (length src))
      | Some b => copy_loop src (S i) k (<[i := b]> dst)
      end
  end.

Definition copy_bytes (src : list byte) (n : Z) (dst : list byte) : M (list byte) :=
  match copy_loop src 0 (Z.to_nat n) dst with
  | inl f => crash f
  | inr l => ret l
  end.

(** Caller array to wire vector: the prologue shared by the write
    operations ([GetByteArrayElements], the loop, [ReleaseByteArrayElements]). *)
Definition to_hidl_vec (buffer : jbyteArray) (len : jint) : M hidl_vec :=
  writeBuffer <- alloc len ;;
  copy_bytes buffer len writeBuffer.

(** Wire vector to a fresh managed array of [len] bytes: [new], the loop,
    [NewByteArray], [SetByteArrayRegion], [delete[]]. *)
Definition to_jbyteArray (buffer : hidl_vec) (len : jint) : M jbyteArray :=
  retBuffer <- alloc len ;;
  retBuffer <- copy_bytes buffer len retBuffer ;;
  ret (take (Z.to_nat len) retBuffer).

(** ** Manager: [init], [getPinName], [getListOf] *)

Definition init : M unit :=
  hal <- associate ;; ret tt.

(** [std::string::c_str()] read by [NewStringUTF]: the characters before
    the first NUL. *)
Fixpoint c_str (s : string) : string :=
  match s with
  | EmptyString => EmptyString
  | String c s' => if Ascii.eqb c Ascii.zero then EmptyString else String c (c_str s')
  end.

(** The body of both list callbacks: [ArrayList.add] of every name, in
    index order, onto [resultArray]. *)
Fixpoint add_names (pinNameList : list string) (resultArray : list string) : list string :=
  match pinNameList with
  | [] => resultArray
  | pin :: rest => add_names rest (resultArray ++ [c_str pin])
  end.

Definition collect_names (r : Return (list string)) : list string :=
  match r with
  | ROk pinNameList => add_names pinNameList []
  | RTransportError => []
  end.

Definition getPinName : M (list string) :=
  hal <- associate ;;
  r <- invoke hal getPinNameList ;;
  discard r ;;;
  ret (collect_names r).

Definition getListOf (mode : jint) : M (list string) :=
  hal <- associate ;;
  r <- invoke hal (hal_getListOf mode) ;;
  discard r ;;;
  ret (collect_names r).

(** ** GPIO *)

Definition setGpioDirection (pin direction : jint) : M unit :=
  hal <- associate ;;
  r <- invoke hal (setDirection pin direction) ;;
  discard r.

Definition setGpioValue (pin : jint) (value : jboolean) : M unit :=
  hal <- associate ;;
  r <- invoke hal (gpio_setValue pin (Bool.eqb value JNI_TRUE)) ;;
  discard r.

Definition of_bool (result : bool) : jboolean :=
  if result then JNI_TRUE else JNI_FALSE.

Definition getGpioValue (pin : jint) : M jboolean :=
  hal <- associate ;;
  r <- invoke hal (gpio_getValue pin) ;;
  result <- value r ;;
  ret (of_bool result).

Definition setGpioActiveType (pin activeType : jint) : M unit :=
  hal <- associate ;;
  r <- invoke hal (gpio_setActiveType pin activeType) ;;
  discard r.

Definition setEdgeTriggerType (pin edgeTriggerType : jint) : M unit :=
  hal <- associate ;;
  r <- invoke hal (gpio_setEdgeTriggerType pin edgeTriggerType) ;;
  discard r.

(** ** class Callback *)

Definition FindClass (name : string) : jclass := name.
Definition GetStaticMethodID (cls : jclass) (name sig : string) : jmethodID :=
  mkMethod cls name sig.

(** [Callback::Callback(JNIEnv*, int)] *)
Definition new_Callback (e : JNIEnv) (p : jint) : Callback :=
  let localClass := FindClass "com/google/android/things/odroid/OdroidThingsManager" in
  let thingsManagerClass := localClass in
  {| env := e;
     pin := p;
     jvm := env_vm e;
     thingsManagerClass := thingsManagerClass;
     cb := GetStaticMethodID thingsManagerClass "doCallback" "(I)V" |}.

(** [Callback::doCallback()], run by the service on [thread].
    [AttachCurrentThread] stores the environment of that thread in the
    [env] member; the method returns [Void()]. *)
Definition doCallback (self : Callback) (thread : nat) : M (Callback * Return unit) :=
  emit (EvAttachCurrentThread (jvm self) thread) ;;;
  let self' := mkCallback (jvm self) (mkEnv (jvm self) thread) (pin self)
                          (thingsManagerClass self) (cb self) in
  emit (EvCallStaticVoidMethod (env self') (thingsManagerClass self') (cb self') (pin self')) ;;;
  ret (self', ROk tt).

Definition registerCallback (e : JNIEnv) (pin : jint) : M unit :=
  hal <- associate ;;
  let callback := new_Callback e pin in
  r <- invoke hal (gpio_registerCallback pin callback) ;;
  discard r.

Definition unregisterCallback (pin : jint) : M unit :=
  hal <- associate ;;
  r <- invoke hal (gpio_unregisterCallback pin) ;;
  discard r.

(** ** PWM *)

Definition openPwm (pin : jint) : M unit :=
  hal <- associate ;;
  r <- invoke hal (pwm_open pin) ;;
  discard r.

Definition closePwm (pin : jint) : M unit :=
  hal <- associate ;;
  r <- invoke hal (pwm_close pin) ;;
  discard r.

Definition setPwmEnable (pin : jint) (enabled : jboolean) : M jboolean :=
  hal <- associate ;;
  r <- invoke hal (pwm_setEnable pin (Bool.eqb enabled JNI_TRUE)) ;;
  result <- value r ;;
  ret (of_bool result).

Definition setDutyCycle (pin : jint) (cycle_rate : jdouble) : M jboolean :=
  hal <- associate ;;
  r <- invoke hal (pwm_setDutyCycle pin cycle_rate) ;;
  result <- value r ;;
  ret (of_bool result).

Definition setFrequency (pin : jint) (frequency_hz : jdouble) : M jboolean :=
  hal <- associate ;;
  r <- invoke hal (pwm_setFrequency pin frequency_hz) ;;
  result <- value r ;;
  ret (of_bool result).

(** ** I2C *)

Definition openI2c (nameIdx address idx : jint) : M unit :=
  hal <- associate ;;
  r <- invoke hal (i2c_open nameIdx address idx) ;;
  discard r.

Definition closeI2c (idx : jint) : M unit :=
  hal <- associate ;;
  r <- invoke hal (i2c_close idx) ;;
  discard r.

(** The result callback of [i2c_readRegBuffer]: [buffer] starts empty and
    is assigned only under [Result::OK]; without a reply the callback
    does not run. *)
Definition i2c_read_callback (r : Return (Result * hidl_vec)) : hidl_vec :=
  match r with
  | ROk (ret, result) => if Result_is_OK ret then result else []
  | RTransportError => []
  end.

Definition readI2cRegBuffer (idx reg len : jint) : M jbyteArray :=
  hal <- associate ;;
  r <- invoke hal (i2c_readRegBuffer idx reg len) ;;
  let buffer := i2c_read_callback r in
  if isOk r then to_jbyteArray buffer len
  else ret [].

Definition writeI2cRegBuffer (idx reg : jint) (buffer : jbyteArray) (len : jint)
  : M jboolean :=
  hal <- associate ;;
  writeBuffer <- to_hidl_vec buffer len ;;
  r <- invoke hal (i2c_writeRegBuffer idx reg writeBuffer len) ;;
  ret_ <- value r ;;
  ret (if Result_is_OK ret_ then JNI_TRUE else JNI_FALSE).

(** ** UART *)

Definition openUart (idx : jint) : M unit :=
  hal <- associate ;;
  r <- invoke hal (uart_open idx) ;;
  discard r.

Definition closeUart (idx : jint) : M unit :=
  hal <- associate ;;
  r <- invoke hal (uart_close idx) ;;
  discard r.

Definition flush (idx : jint) (direction : jint) : M jboolean :=
  hal <- associate ;;
  r <- invoke hal (uart_flush idx direction) ;;
  result <- value r ;;
  ret (of_bool result).

Definition sendBreak (idx : jint) (duration : jint) : M jboolean :=
  hal <- associate ;;
  r <- invoke hal (uart_sendBreak idx duration) ;;
  result <- value r ;;
  ret (of_bool result).

Definition setBaudrate (idx : jint) (rate : jint) : M jboolean :=
  hal <- associate ;;
  r <- invoke hal (uart_setBaudrate idx rate) ;;
  result <- value r ;;
  ret (of_bool result).

Definition setDataSize (idx : jint) (size : jint) : M jboolean :=
  hal <- associate ;;
  r <- invoke hal (uart_setDataSize idx size) ;;
  result <- value r ;;
  ret (of_bool result).

Definition setHardwareFlowControl (idx : jint) (mode : jint) : M jboolean :=
  hal <- associate ;;
  r <- invoke hal (uart_setHardwareFlowControl idx mode) ;;
  result <- value r ;;
  ret (of_bool result).

Definition setParity (idx : jint) (mode : jint) : M jboolean :=
  hal <- associate ;;
  r <- invoke hal (uart_setParity idx mode) ;;
  result <- value r ;;
  ret (of_bool result).

Definition setStopBits (idx : jint) (bits : jint) : M jboolean :=
  hal <- associate ;;
  r <- invoke hal (uart_setStopBits idx bits) ;;
  result <- value r ;;
  ret (of_bool result).

(** The result callback of [uart_read] sets [retLength], and [buffer]
    only when [len > 0]. The [Return] of the call is dropped unchecked,
    so a failed transport aborts before [retLength] is read. *)
Definition readUart (idx len : jint) : M jbyteArray :=
  hal <- associate ;;
  r <- invoke hal (uart_read idx len) ;;
  discard r ;;;
  match r with
  | ROk (retLength, result) =>
      let buffer := if 0 <? retLength then result else [] in
      if 0 <? retLength then to_jbyteArray buffer retLength
      else ret []
  | RTransportError => crash FailedReturnUnchecked
  end.

Definition writeUart (idx : jint) (buffer : jbyteArray) (len : jint) : M jint :=
  hal <- associate ;;
  writeBuffer <- to_hidl_vec buffer len ;;
  r <- invoke hal (uart_write idx writeBuffer len) ;;
  ret_ <- value r ;;
  ret ret_.

(** ** SPI *)

Definition openSpi (idx : jint) : M unit :=
  hal <- associate ;;
  r <- invoke hal (spi_open idx) ;;
  discard r.

Definition closeSpi (idx : jint) : M unit :=
  hal <- associate ;;
  r <- invoke hal (spi_close idx) ;;
  discard r.

Definition setBitJustification (idx : jint) (justification : jint) : M jboolean :=
  hal <- associate ;;
  r <- invoke hal (spi_setBitJustification idx justification) ;;
  result <- value r ;;
  ret (of_bool result).

Definition setBitsPerWord (idx : jint) (bits : jint) : M jboolean :=
  hal <- associate ;;
  r <- invoke hal (spi_setBitsPerWord idx bits) ;;
  result <- value r ;;
  ret (of_bool result).

Definition setMode (idx : jint) (mode : jint) : M jboolean :=
  hal <- associate ;;
  r <- invoke hal (spi_setMode idx mode) ;;
  result <- value r ;;
  ret (of_bool result).

Definition setCsChange (idx : jint) (cs : jboolean) : M jboolean :=
  hal <- associate ;;
  r <- invoke hal (spi_setCsChange idx (Bool.eqb cs JNI_TRUE)) ;;
  result <- value r ;;
  ret (of_bool result).

Definition setDelay (idx : jint) (delay : jint) : M jboolean :=
  hal <- associate ;;
  r <- invoke hal (spi_setDelay idx delay) ;;
  result <- value r ;;
  ret (of_bool result).

Definition setFrequencySpi (idx : jint) (frequency : jint) : M jboolean :=
  hal <- associate ;;
  r <- invoke hal (spi_setFrequency idx frequency) ;;
  result <- value r ;;
  ret (of_bool result).

(** The result callbacks of [spi_read] and [spi_transfer] assign
    [rxBuffer] whatever [len] the service reports. *)
Definition spi_callback (r : Return (Z * hidl_vec)) : hidl_vec :=
  match r with
  | ROk (len, result) => result
  | RTransportError => []
  end.

Definition readSpi (idx len : jint) : M jbyteArray :=
  hal <- associate ;;
  r <- invoke hal (spi_read idx len) ;;
  let rxBuffer := spi_callback r in
  if isOk r then to_jbyteArray rxBuffer len
  else ret [].

Definition transferSpi (idx : jint) (txArray : jbyteArray) (len : jint) : M jbyteArray :=
  hal <- associate ;;
  txBuffer <- to_hidl_vec txArray len ;;
  r <- invoke hal (spi_transfer idx txBuffer len) ;;
  let rxBuffer := spi_callback r in
  if isOk r then to_jbyteArray rxBuffer len
  else ret [].

Definition writeSpi (idx : jint) (txArray : jbyteArray) (len : jint) : M jboolean :=
  hal <- associate ;;
  txBuffer <- to_hidl_vec txArray len ;;
  r <- invoke hal (spi_write idx txBuffer len) ;;
  result <- value r ;;
  ret (of_bool result).

(** ** The registered native methods
    ([sManagerMethods], [sGpioMethods], [sPwmMethods], [sI2cMethods],
    [sUartMethods], [sSpiMethod]) *)

Inductive jvalue :=
| JVoid
| JBoolean (b : jboolean)
| JInt (n : jint)
| JByteArray (a : jbyteArray)
| JArrayList (l : list string).

Inductive NativeCall :=
| n_init
| n_getPinName
| n_getListOf (mode : jint)
| n_setGpioDirection (pin direction : jint)
| n_setGpioValue (pin : jint) (value : jboolean)
| n_getGpioValue (pin : jint)
| n_setGpioActiveType (pin activeType : jint)
| n_setEdgeTriggerType (pin edgeTriggerType : jint)
| n_registerCallback (e : JNIEnv) (pin : jint)
| n_unregisterCallback (pin : jint)
| n_openPwm (pin : jint)
| n_closePwm (pin : jint)
| n_setPwmEnabled (pin : jint) (enabled : jboolean)
| n_setDutyCycle (pin : jint) (cycle_rate : jdouble)
| n_setFrequency (pin : jint) (frequency_hz : jdouble)
| n_openI2c (nameIdx address idx : jint)
| n_closeI2c (idx : jint)
| n_readRegBuffer (idx reg len : jint)
| n_writeRegBuffer (idx reg : jint) (buffer : jbyteArray) (len : jint)
| n_openUart (idx : jint)
| n_closeUart (idx : jint)
| n_flush (idx direction : jint)
| n_sendBreak (idx duration : jint)
| n_setBaudrate (idx rate : jint)
| n_setDataSize (idx size : jint)
| n_setHardwareFlowControl (idx mode : jint)
| n_setParity (idx mode : jint)
| n_setStopBits (idx bits : jint)
| n_readUart (idx len : jint)
| n_writeUart (idx : jint) (buffer : jbyteArray) (len : jint)
| n_openSpi (idx : jint)
| n_closeSpi (idx : jint)
| n_setBitJustification (idx justification : jint)
| n_setBitsPerWord (idx bits : jint)
| n_setMode (idx mode : jint)
| n_setCsChange (idx : jint) (cs : jboolean)
| n_setDelay (idx delay : jint)
| n_setFrequencySpi (idx frequency : jint)
| n_readSpi (idx len : jint)
| n_transferSpi (idx : jint) (txArray : jbyteArray) (len : jint)
| n_writeSpi (idx : jint) (txArray : jbyteArray) (len : jint).

Definition fmapM {A B} (f : A -> B) (m : M A) : M B :=
  a <- m ;; ret (f a).

Definition void (m : M unit) : M jvalue := fmapM (fun _ => JVoid) m.

Definition run (c : NativeCall) : M jvalue :=
  match c with
  | n_init => void init
  | n_getPinName => fmapM JArrayList getPinName
  | n_getListOf mode => fmapM JArrayList (getListOf mode)
  | n_setGpioDirection pin direction => void (setGpioDirection pin direction)
  | n_setGpioValue pin value => void (setGpioValue pin value)
  | n_getGpioValue pin => fmapM JBoolean (getGpioValue pin)
  | n_setGpioActiveType pin t => void (setGpioActiveType pin t)
  | n_setEdgeTriggerType pin t => void (setEdgeTriggerType pin t)
  | n_registerCallback e pin => void (registerCallback e pin)
  | n_unregisterCallback pin => void (unregisterCallback pin)
  | n_openPwm pin => void (openPwm pin)
  | n_closePwm pin => void (closePwm pin)
  | n_setPwmEnabled pin enabled => fmapM JBoolean (setPwmEnable pin enabled)
  | n_setDutyCycle pin d => fmapM JBoolean (setDutyCycle pin d)
  | n_setFrequency pin f => fmapM JBoolean (setFrequency pin f)
  | n_openI2c nameIdx address idx => void (openI2c nameIdx address idx)
  | n_closeI2c idx => void (closeI2c idx)
  | n_readRegBuffer idx reg len => fmapM JByteArray (readI2cRegBuffer idx reg len)
  | n_writeRegBuffer idx reg b len => fmapM JBoolean (writeI2cRegBuffer idx reg b len)
  | n_openUart idx => void (openUart idx)
  | n_closeUart idx => void (closeUart idx)
  | n_flush idx x => fmapM JBoolean (flush idx x)
  | n_sendBreak idx x => fmapM JBoolean (sendBreak idx x)
  | n_setBaudrate idx x => fmapM JBoolean (setBaudrate idx x)
  | n_setDataSize idx x => fmapM JBoolean (setDataSize idx x)
  | n_setHardwareFlowControl idx x => fmapM JBoolean (setHardwareFlowControl idx x)
  | n_setParity idx x => fmapM JBoolean (setParity idx x)
  | n_setStopBits idx x => fmapM JBoolean (setStopBits idx x)
  | n_readUart idx len => fmapM JByteArray (readUart idx len)
  | n_writeUart idx b len => fmapM JInt (writeUart idx b len)
  | n_openSpi idx => void (openSpi idx)
  | n_closeSpi idx => void (closeSpi idx)
  | n_setBitJustification idx x => fmapM JBoolean (setBitJustification idx x)
  | n_setBitsPerWord idx x => fmapM JBoolean (setBitsPerWord idx x)
  | n_setMode idx x => fmapM JBoolean (setMode idx x)
  | n_setCsChange idx cs => fmapM JBoolean (setCsChange idx cs)
  | n_setDelay idx x => fmapM JBoolean (setDelay idx x)
  | n_setFrequencySpi idx x => fmapM JBoolean (setFrequencySpi idx x)
  | n_readSpi idx len => fmapM JByteArray (readSpi idx len)
  | n_transferSpi idx tx len => fmapM JByteArray (transferSpi idx tx len)
  | n_writeSpi idx tx len => fmapM JBoolean (writeSpi idx tx len)
  end.

(** The marshalling operations are all natives but [_init], which only
    acquires the handle. *)
Definition is_marshalling (c : NativeCall) : bool :=
  match c with n_init => false | _ => true end.

(** ** Vocabulary of the statements *)

(** What one call of [getService] from [associate] leaves in the trace. *)
Definition connect_log (h : option Handle) : list Event :=
  EvGetService h ::
  match h with
  | None => [EvLogE LOG_TAG "Unable to get IOdroidThings interface."]
  | Some _ => []
  end.

(** Sequences of calls on the handle manager: [acquire()] is
    [associate], [invalidate()] is [disassociate]. *)
Inductive HandleOp := Acquire | Invalidate.

Fixpoint run_ops (ops : list HandleOp) : M (list (option Handle)) :=
  match ops with
  | [] => ret []
  | Acquire :: rest =>
      h <- associate ;; hs <- run_ops rest ;; ret (h :: hs)
  | Invalidate :: rest =>
      disassociate ;;; run_ops rest
  end.

(** The managed entry point of the callback bridge. *)
Definition manager_class : jclass :=
  "com/google/android/things/odroid/OdroidThingsManager".

Definition managed_doCallback : jmethodID :=
  mkMethod manager_class "doCallback" "(I)V".

(** The length arguments of the write operations lie inside the
    caller's arrays. *)
Definition buffers_in_bounds (c : NativeCall) : Prop :=
  match c with
  | n_writeRegBuffer _ _ b len
  | n_writeUart _ b len
  | n_transferSpi _ b len
  | n_writeSpi _ b len => 0 <= len <= Z.of_nat (length b)
  | _ => True
  end.

(** ** The bridge over many events *)

(** [doCallback] run once per thread of [threads], each run on the
    object the previous one left. *)
Fixpoint fire (self : Callback) (threads : list nat) : M Callback :=
  match threads with
  | [] => ret self
  | t :: rest => r <- doCallback self t ;; fire r.1 rest
  end.

Definition deliveries (self : Callback) (threads : list nat) : list Event :=
  flat_map (fun t =>
              [EvAttachCurrentThread (jvm self) t;
               EvCallStaticVoidMethod (mkEnv (jvm self) t)
                 (thingsManagerClass self) (cb self) (pin self)])
           threads.

(** * The registration tables

    [sManagerMethods], [sGpioMethods], [sPwmMethods], [sI2cMethods],
    [sUartMethods], [sSpiMethod] and [register_google_android_things_odroid]. *)

(** The static functions the tables point to. *)
Inductive Native :=
| fn_init
| fn_getPinName
| fn_getListOf
| fn_setGpioDirection
| fn_setGpioValue
| fn_getGpioValue
| fn_setGpioActiveType
| fn_setEdgeTriggerType
| fn_registerCallback
| fn_unregisterCallback
| fn_openPwm
| fn_closePwm
| fn_setPwmEnable
| fn_setDutyCycle
| fn_setFrequency
| fn_openI2c
| fn_closeI2c
| fn_readI2cRegBuffer
| fn_writeI2cRegBuffer
| fn_openUart
| fn_closeUart
| fn_flush
| fn_sendBreak
| fn_setBaudrate
| fn_setDataSize
| fn_setHardwareFlowControl
| fn_setParity
| fn_setStopBits
| fn_readUart
| fn_writeUart
| fn_openSpi
| fn_closeSpi
| fn_setBitJustification
| fn_setBitsPerWord
| fn_setMode
| fn_setCsChange
| fn_setDelay
| fn_setFrequencySpi
| fn_readSpi
| fn_transferSpi
| fn_writeSpi.

(** The function behind each call. *)
Definition native_of (c : NativeCall) : Native :=
  match c with
  | n_init => fn_init
  | n_getPinName => fn_getPinName
  | n_getListOf _ => fn_getListOf
  | n_setGpioDirection _ _ => fn_setGpioDirection
  | n_setGpioValue _ _ => fn_setGpioValue
  | n_getGpioValue _ => fn_getGpioValue
  | n_setGpioActiveType _ _ => fn_setGpioActiveType
  | n_setEdgeTriggerType _ _ => fn_setEdgeTriggerType
  | n_registerCallback _ _ => fn_registerCallback
  | n_unregisterCallback _ => fn_unregisterCallback
  | n_openPwm _ => fn_openPwm
  | n_closePwm _ => fn_closePwm
  | n_setPwmEnabled _ _ => fn_setPwmEnable
  | n_setDutyCycle _ _ => fn_setDutyCycle
  | n_setFrequency _ _ => fn_setFrequency
  | n_openI2c _ _ _ => fn_openI2c
  | n_closeI2c _ => fn_closeI2c
  | n_readRegBuffer _ _ _ => fn_readI2cRegBuffer
  | n_writeRegBuffer _ _ _ _ => fn_writeI2cRegBuffer
  | n_openUart _ => fn_openUart
  | n_closeUart _ => fn_closeUart
  | n_flush _ _ => fn_flush
  | n_sendBreak _ _ => fn_sendBreak
  | n_setBaudrate _ _ => fn_setBaudrate
  | n_setDataSize _ _ => fn_setDataSize
  | n_setHardwareFlowControl _ _ => fn_setHardwareFlowControl
  | n_setParity _ _ => fn_setParity
  | n_setStopBits _ _ => fn_setStopBits
  | n_readUart _ _ => fn_readUart
  | n_writeUart _ _ _ => fn_writeUart
  | n_openSpi _ => fn_openSpi
  | n_closeSpi _ => fn_closeSpi
  | n_setBitJustification _ _ => fn_setBitJustification
  | n_setBitsPerWord _ _ => fn_setBitsPerWord
  | n_setMode _ _ => fn_setMode
  | n_setCsChange _ _ => fn_setCsChange
  | n_setDelay _ _ => fn_setDelay
  | n_setFrequencySpi _ _ => fn_setFrequencySpi
  | n_readSpi _ _ => fn_readSpi
  | n_transferSpi _ _ _ => fn_transferSpi
  | n_writeSpi _ _ _ => fn_writeSpi
  end.

(** Parameter and return types of the C prototypes, after [JNIEnv*] and
    [jobject]: [jint], [jboolean], [jdouble], [jbyteArray]; [void],
    [jboolean], [jint], [jbyteArray], [jobject] (an [ArrayList]). *)
Inductive jtype := TInt | TBoolean | TDouble | TByteArray.
Inductive rtype := RVoid | RBoolean | RInt | RByteArray | RArrayList.

(** The arguments a call passes, each under its JNI type. *)
Inductive jarg :=
| AInt (n : jint)
| ABoolean (b : jboolean)
| ADouble (d : jdouble)
| AByteArray (a : jbyteArray).

Definition jarg_type (a : jarg) : jtype :=
  match a with
  | AInt _ => TInt
  | ABoolean _ => TBoolean
  | ADouble _ => TDouble
  | AByteArray _ => TByteArray
  end.

Definition args (c : NativeCall) : list jarg :=
  match c with
  | n_init => []
  | n_getPinName => []
  | n_getListOf a0 => [AInt a0]
  | n_setGpioDirection a0 a1 => [AInt a0; AInt a1]
  | n_setGpioValue a0 a1 => [AInt a0; ABoolean a1]
  | n_getGpioValue a0 => [AInt a0]
  | n_setGpioActiveType a0 a1 => [AInt a0; AInt a1]
  | n_setEdgeTriggerType a0 a1 => [AInt a0; AInt a1]
  | n_registerCallback _ a0 => [AInt a0]
  | n_unregisterCallback a0 => [AInt a0]
  | n_openPwm a0 => [AInt a0]
  | n_closePwm a0 => [AInt a0]
  | n_setPwmEnabled a0 a1 => [AInt a0; ABoolean a1]
  | n_setDutyCycle a0 a1 => [AInt a0; ADouble a1]
  | n_setFrequency a0 a1 => [AInt a0; ADouble a1]
  | n_openI2c a0 a1 a2 => [AInt a0; AInt a1; AInt a2]
  | n_closeI2c a0 => [AInt a0]
  | n_readRegBuffer a0 a1 a2 => [AInt a0; AInt a1; AInt a2]
  | n_writeRegBuffer a0 a1 a2 a3 => [AInt a0; AInt a1; AByteArray a2; AInt a3]
  | n_openUart a0 => [AInt a0]
  | n_closeUart a0 => [AInt a0]
  | n_flush a0 a1 => [AInt a0; AInt a1]
  | n_sendBreak a0 a1 => [AInt a0; AInt a1]
  | n_setBaudrate a0 a1 => [AInt a0; AInt a1]
  | n_setDataSize a0 a1 => [AInt a0; AInt a1]
  | n_setHardwareFlowControl a0 a1 => [AInt a0; AInt a1]
  | n_setParity a0 a1 => [AInt a0; AInt a1]
  | n_setStopBits a0 a1 => [AInt a0; AInt a1]
  | n_readUart a0 a1 => [AInt a0; AInt a1]
  | n_writeUart a0 a1 a2 => [AInt a0; AByteArray a1; AInt a2]
  | n_openSpi a0 => [AInt a0]
  | n_closeSpi a0 => [AInt a0]
  | n_setBitJustification a0 a1 => [AInt a0; AInt a1]
  | n_setBitsPerWord a0 a1 => [AInt a0; AInt a1]
  | n_setMode a0 a1 => [AInt a0; AInt a1]
  | n_setCsChange a0 a1 => [AInt a0; ABoolean a1]
  | n_setDelay a0 a1 => [AInt a0; AInt a1]
  | n_setFrequencySpi a0 a1 => [AInt a0; AInt a1]
  | n_readSpi a0 a1 => [AInt a0; AInt a1]
  | n_transferSpi a0 a1 a2 => [AInt a0; AByteArray a1; AInt a2]
  | n_writeSpi a0 a1 a2 => [AInt a0; AByteArray a1; AInt a2]
  end.

Definition result_type (f : Native) : rtype :=
  match f with
  | fn_init | fn_setGpioDirection | fn_setGpioValue | fn_setGpioActiveType
  | fn_setEdgeTriggerType | fn_registerCallback | fn_unregisterCallback
  | fn_openPwm | fn_closePwm | fn_openI2c | fn_closeI2c | fn_openUart
  | fn_closeUart | fn_openSpi | fn_closeSpi => RVoid
  | fn_getPinName | fn_getListOf => RArrayList
  | fn_getGpioValue | fn_setPwmEnable | fn_setDutyCycle | fn_setFrequency
  | fn_writeI2cRegBuffer | fn_flush | fn_sendBreak | fn_setBaudrate
  | fn_setDataSize | fn_setHardwareFlowControl | fn_setParity
  | fn_setStopBits | fn_setBitJustification | fn_setBitsPerWord | fn_setMode
  | fn_setCsChange | fn_setDelay | fn_setFrequencySpi | fn_writeSpi => RBoolean
  | fn_readI2cRegBuffer | fn_readUart | fn_readSpi | fn_transferSpi => RByteArray
  | fn_writeUart => RInt
  end.

Definition value_type (v : jvalue) : rtype :=
  match v with
  | JVoid => RVoid
  | JBoolean _ => RBoolean
  | JInt _ => RInt
  | JByteArray _ => RByteArray
  | JArrayList _ => RArrayList
  end.

(** JNI type descriptors. *)
Definition jtype_descriptor (t : jtype) : string :=
  match t with
  | TInt => "I"
  | TBoolean => "Z"
  | TDouble => "D"
  | TByteArray => "[B"
  end.

Definition rtype_descriptor (r : rtype) : string :=
  match r with
  | RVoid => "V"
  | RBoolean => "Z"
  | RInt => "I"
  | RByteArray => "[B"
  | RArrayList => "Ljava/util/ArrayList;"
  end.

Definition descriptor (ps : list jtype) (r : rtype) : string :=
  String.append "("
    (String.append (String.concat "" (jtype_descriptor <$> ps))
       (String.append ")" (rtype_descriptor r))).

Record JNINativeMethod := mkNative {
  name : string;
  signature : string;
  fnPtr : Native
}.

Definition sManagerMethods : list JNINativeMethod :=
  [ mkNative "_init" "()V" fn_init;
    mkNative "_getPinName" "()Ljava/util/ArrayList;" fn_getPinName;
    mkNative "_getListOf" "(I)Ljava/util/ArrayList;" fn_getListOf ].

Definition sGpioMethods : list JNINativeMethod :=
  [ mkNative "_setGpioDirection" "(II)V" fn_setGpioDirection;
    mkNative "_setGpioValue" "(IZ)V" fn_setGpioValue;
    mkNative "_getGpioValue" "(I)Z" fn_getGpioValue;
    mkNative "_setGpioActiveType" "(II)V" fn_setGpioActiveType;
    mkNative "_setEdgeTriggerType" "(II)V" fn_setEdgeTriggerType;
    mkNative "_registerCallback" "(I)V" fn_registerCallback;
    mkNative "_unregisterCallback" "(I)V" fn_unregisterCallback ].

Definition sPwmMethods : list JNINativeMethod :=
  [ mkNative "_openPwm" "(I)V" fn_openPwm;
    mkNative "_closePwm" "(I)V" fn_closePwm;
    mkNative "_setPwmEnabled" "(IZ)Z" fn_setPwmEnable;
    mkNative "_setDutyCycle" "(ID)Z" fn_setDutyCycle;
    mkNative "_setFrequency" "(ID)Z" fn_setFrequency ].

Definition sI2cMethods : list JNINativeMethod :=
  [ mkNative "_open" "(III)V" fn_openI2c;
    mkNative "_close" "(I)V" fn_closeI2c;
    mkNative "_readRegBuffer" "(III)[B" fn_readI2cRegBuffer;
    mkNative "_writeRegBuffer" "(II[BI)Z" fn_writeI2cRegBuffer ].

Definition sUartMethods : list JNINativeMethod :=
  [ mkNative "_open" "(I)V" fn_openUart;
    mkNative "_close" "(I)V" fn_closeUart;
    mkNative "_flush" "(II)Z" fn_flush;
    mkNative "_sendBreak" "(II)Z" fn_sendBreak;
    mkNative "_setBaudrate" "(II)Z" fn_setBaudrate;
    mkNative "_setDataSize" "(II)Z" fn_setDataSize;
    mkNative "_setHardwareFlowControl" "(II)Z" fn_setHardwareFlowControl;
    mkNative "_setParity" "(II)Z" fn_setParity;
    mkNative "_setStopBits" "(II)Z" fn_setStopBits;
    mkNative "_read" "(II)[B" fn_readUart;
    mkNative "_write" "(I[BI)I" fn_writeUart ].

Definition sSpiMethod : list JNINativeMethod :=
  [ mkNative "_open" "(I)V" fn_openSpi;
    mkNative "_close" "(I)V" fn_closeSpi;
    mkNative "_setBitJustification" "(II)Z" fn_setBitJustification;
    mkNative "_setBitsPerWord" "(II)Z" fn_setBitsPerWord;
    mkNative "_setMode" "(II)Z" fn_setMode;
    mkNative "_setCsChange" "(IZ)Z" fn_setCsChange;
    mkNative "_setDelay" "(II)Z" fn_setDelay;
    mkNative "_setFrequency" "(II)Z" fn_setFrequencySpi;
    mkNative "_read" "(II)[B" fn_readSpi;
    mkNative "_transfer" "(I[BI)[B" fn_transferSpi;
    mkNative "_write" "(I[BI)Z" fn_writeSpi ].

Definition all_methods : list JNINativeMethod :=
  sManagerMethods ++ sGpioMethods ++ sPwmMethods ++ sI2cMethods
  ++ sUartMethods ++ sSpiMethod.

(** [register_google_android_things_odroid], over a registrar
    [jniRegisterNativeMethods class methods count] and the debug log
    [ALOGD], both acting on a state [R] of the runtime. *)
Section Register.

Variable R : Type.
Variable jniRegisterNativeMethods :
  string -> list JNINativeMethod -> nat -> R -> Z * R.
Variable ALOGD : string -> R -> R.

Definition NELEM {A} (table : list A) : nat := length table.

Definition register_google_android_things_odroid (r : R) : Z * R :=
  let r := ALOGD "load odroid things server jni " r in
  let r := (jniRegisterNativeMethods
              "com/google/android/things/odroid/OdroidThingsManager"
              sManagerMethods (NELEM sManagerMethods) r).2 in
  let r := (jniRegisterNativeMethods
              "com/google/android/things/odroid/OdroidGpio"
              sGpioMethods (NELEM sGpioMethods) r).2 in
  let r := (jniRegisterNativeMethods
              "com/google/android/things/odroid/OdroidPwm"
              sPwmMethods (NELEM sPwmMethods) r).2 in
  let r := (jniRegisterNativeMethods
              "com/google/android/things/odroid/OdroidI2c"
              sI2cMethods (NELEM sI2cMethods) r).2 in
  let r := (jniRegisterNativeMethods
              "com/google/android/things/odroid/OdroidUart"
              sUartMethods (NELEM sUartMethods) r).2 in
  jniRegisterNativeMethods "com/google/android/things/odroid/OdroidSpi"
    sSpiMethod (NELEM sSpiMethod) r.

End Register.

(** A registrar that answers [status class] and records, per call, the
    class and the first [count] methods of the table. *)
Definition recording (status : string -> Z)
    (class : string) (methods : list JNINativeMethod) (count : nat)
    (r : list (string * list JNINativeMethod))
  : Z * list (string * list JNINativeMethod) :=
  (status class, r ++ [(class, take count methods)]).

Definition registered (status : string -> Z)
  : Z * list (string * list JNINativeMethod) :=
  register_google_android_things_odroid _ (recording status) (fun _ r => r) [].

#[global] Instance Native_eq_dec : EqDecision Native.
Proof. solve_decision. Defined.

(** The entry of the tables that points to [f], if any. *)
Definition method_of (f : Native) : option JNINativeMethod :=
  snd <$> list_find (fun m => fnPtr m = f) all_methods.

(** * Properties *)

(** ** The copy loop *)

Lemma copy_loop_in_bounds (src : list byte) :
  forall (todo i : nat) (dst : list byte),
    (i + todo <= length src)%nat ->
    length dst = (i + todo)%nat ->
    take i dst = take i src ->
    copy_loop src i todo dst = inr (take (i + todo) src).
Proof.
  induction todo as [|k IH]; intros i dst Hsrc Hdst Hpre; simpl.
  - rewrite Nat.add_0_r in *. f_equal.
    rewrite <- Hpre. symmetry. apply take_ge. lia.
  - destruct (lookup_lt_is_Some_2 src i) as [b Hb]; [lia|].
    rewrite Hb.
    rewrite IH.
    + f_equal. f_equal. lia.
    + lia.
    + rewrite length_insert. lia.
    + rewrite (take_S_r src i b Hb).
      rewrite (take_S_r (<[i:=b]> dst) i b).
      * rewrite take_insert_ge by lia. by rewrite Hpre.
      * apply list_lookup_insert_eq. lia.
Qed.

Lemma copy_loop_out_of_bounds (src : list byte) :
  forall (todo i : nat) (dst : list byte),
    (i <= length src)%nat ->
    (length src < i + todo)%nat ->
    copy_loop src i todo dst = inl (OutOfBoundsRead (length src) (length src)).
Proof.
  induction todo as [|k IH]; intros i dst Hi Hlt; simpl.
  - lia.
  - destruct (src !! i) as [b|] eqn:Hb.
    + apply lookup_lt_Some in Hb. apply IH; lia.
    + apply lookup_ge_None in Hb.
      assert (i = length src) as -> by lia. reflexivity.
Qed.

Lemma alloc_ok (n : Z) (w : World St) :
  0 <= n -> alloc n w = Done (replicate (Z.to_nat n) x00) w.
Proof.
  intros Hn. unfold alloc.
  destruct (Z.ltb_spec n 0); [lia | reflexivity].
Qed.

Lemma alloc_negative (n : Z) (w : World St) :
  n < 0 -> alloc n w = Crash (BadArrayLength n) w.
Proof.
  intros Hn. unfold alloc.
  destruct (Z.ltb_spec n 0); [reflexivity | lia].
Qed.

Lemma copy_bytes_in_bounds (src : list byte) (n : Z) (w : World St) :
  0 <= n <= Z.of_nat (length src) ->
  copy_bytes src n (replicate (Z.to_nat n) x00) w = Done (take (Z.to_nat n) src) w.
Proof.
  intros Hn. unfold copy_bytes.
  rewrite (copy_loop_in_bounds src (Z.to_nat n) 0); simpl; try reflexivity.
  - lia.
  - by rewrite length_replicate.
Qed.

Lemma copy_bytes_out_of_bounds (src dst : list byte) (n : Z) (w : World St) :
  Z.of_nat (length src) < n ->
  copy_bytes src n dst w = Crash (OutOfBoundsRead (length src) (length src)) w.
Proof.
  intros Hn. unfold copy_bytes.
  rewrite copy_loop_out_of_bounds; [reflexivity | lia | lia].
Qed.

Lemma to_hidl_vec_in_bounds (buffer : jbyteArray) (len : jint) (w : World St) :
  0 <= len <= Z.of_nat (length buffer) ->
  to_hidl_vec buffer len w = Done (take (Z.to_nat len) buffer) w.
Proof.
  intros Hn. unfold to_hidl_vec, bind.
  rewrite alloc_ok by lia. by apply copy_bytes_in_bounds.
Qed.

Lemma to_jbyteArray_in_bounds (buffer : hidl_vec) (len : jint) (w : World St) :
  0 <= len <= Z.of_nat (length buffer) ->
  to_jbyteArray buffer len w = Done (take (Z.to_nat len) buffer) w.
Proof.
  intros Hn. unfold to_jbyteArray, bind.
  rewrite alloc_ok by lia. rewrite copy_bytes_in_bounds by lia.
  unfold ret. f_equal. rewrite take_take. f_equal. lia.
Qed.

Lemma to_jbyteArray_out_of_bounds (buffer : hidl_vec) (len : jint) (w : World St) :
  Z.of_nat (length buffer) < len ->
  to_jbyteArray buffer len w
  = Crash (OutOfBoundsRead (length buffer) (length buffer)) w.
Proof.
  intros Hn. unfold to_jbyteArray, bind.
  rewrite alloc_ok by lia. by rewrite copy_bytes_out_of_bounds.
Qed.

(** ** The handle manager *)

Lemma associate_stored (w : World St) (h : Handle) :
  sOdroidThings w = Some h -> associate w = Done (Some h) w.
Proof.
  intros Hw. unfold associate, bind, get_sOdroidThings, ret.
  cbn. rewrite Hw. cbn. by rewrite Hw.
Qed.

Lemma associate_empty (w : World St) :
  sOdroidThings w = None ->
  associate w
  = Done (getService (svc w)).1
         (mkWorld (getService (svc w)).1 (getService (svc w)).2
                  (trace w ++ connect_log (getService (svc w)).1)).
Proof.
  intros Hw.
  unfold associate, bind, get_sOdroidThings, call_getService,
    set_sOdroidThings, ALOGE, emit, ret, connect_log.
  cbn. rewrite Hw. destruct (getService (svc w)) as [[h|] s']; simpl.
  - reflexivity.
  - by rewrite <- app_assoc.
Qed.

Lemma associate_returns_stored (w w1 : World St) (r : option Handle) :
  associate w = Done r w1 -> sOdroidThings w1 = r.
Proof.
  destruct (sOdroidThings w) as [h|] eqn:Hw.
  - rewrite (associate_stored w h Hw). by intros [= <- <-].
  - rewrite (associate_empty w Hw). by intros [= <- <-].
Qed.

(** After a failed acquisition nothing is stored, so the next one asks
    the service manager again. *)
Lemma associate_retries_after_failure (w w1 : World St) :
  associate w = Done None w1 ->
  associate w1
  = Done (getService (svc w1)).1
         (mkWorld (getService (svc w1)).1 (getService (svc w1)).2
                  (trace w1 ++ connect_log (getService (svc w1)).1)).
Proof.
  intros Hacq. apply associate_empty.
  by apply (associate_returns_stored w w1 None).
Qed.

Lemma associate_total (w : World St) :
  exists r w1, associate w = Done r w1.
Proof.
  destruct (sOdroidThings w) as [h|] eqn:Hw.
  - rewrite (associate_stored w h Hw). eauto.
  - rewrite (associate_empty w Hw). eauto.
Qed.


Lemma run_ops_total (ops : list HandleOp) :
  forall w, exists hs w', run_ops ops w = Done hs w'.
Proof.
  induction ops as [|[|] rest IH]; intros w; simpl.
  - by eexists _, _.
  - unfold bind. destruct (associate_total w) as (r & w1 & ->).
    destruct (IH w1) as (hs & w' & ->). by eexists _, _.
  - unfold bind, disassociate. apply IH.
Qed.

(** C1. Two acquisitions with no invalidation in between return the same
    connection: once [associate] has returned a non-null handle [h], the
    next [associate] returns [h] again and leaves the process untouched (no
    call to [getService]). [disassociate] clears the stored handle, and
    the [associate] that follows calls [getService] and returns its
    answer. *)
Theorem associate_twice_same_connection (w w1 : World St) (h : Handle) :
  associate w = Done (Some h) w1 ->
  associate w1 = Done (Some h) w1
  /\ disassociate w1 = Done tt (mkWorld None (svc w1) (trace w1))
  /\ let w2 := mkWorld None (svc w1) (trace w1) in
     associate w2
     = Done (getService (svc w2)).1
            (mkWorld (getService (svc w2)).1 (getService (svc w2)).2
                     (trace w2 ++ connect_log (getService (svc w2)).1)).
Proof.
  intros Hfirst.
  pose proof (associate_returns_stored _ _ _ Hfirst) as Hstored.
  split; [by apply associate_stored|].
  split; [reflexivity|].
  by apply associate_empty.
Qed.

(** C7. When the handle is not stored and [getService] fails,
    [associate] logs "Unable to get IOdroidThings interface." and returns
    the null handle; and every sequence of [associate] / [disassociate]
    calls, from every state, runs to its end without a crash. *)
Theorem associate_failure_logged_not_raised (w : World St) :
  sOdroidThings w = None ->
  (getService (svc w)).1 = None ->
  associate w
  = Done None
         (mkWorld None (getService (svc w)).2
                  (trace w ++ [EvGetService None;
                               EvLogE LOG_TAG "Unable to get IOdroidThings interface."]))
  /\ forall (ops : list HandleOp) (w0 : World St),
       exists hs w', run_ops ops w0 = Done hs w'.
Proof.
  intros Hw Hfail. split.
  - rewrite (associate_empty w Hw). by rewrite Hfail.
  - intros ops w0. apply run_ops_total.
Qed.

(** ** Calls through a live handle *)

Lemma invoke_live (h : Handle) (r : HalReq) (w : World St) :
  invoke (Some h) r w
  = Done (serve h r (svc w)).1
         (mkWorld (sOdroidThings w) (serve h r (svc w)).2 (trace w ++ [EvHal h r])).
Proof. unfold invoke. by destruct (serve h r (svc w)). Qed.

Lemma invoke_null (r : HalReq) (w : World St) :
  invoke None r w = Crash NullHandleDeref w.
Proof. reflexivity. Qed.

(** C8. [unregisterCallback] keeps no table of registrations and tests
    nothing: for every line identifier, with a live handle it hands
    exactly [gpio_unregisterCallback pin] to the service, and returns
    normally once the service has answered, whatever the service holds
    for that line. Its own state, the stored handle, is unchanged. *)
Theorem unregisterCallback_forwards (pin : jint) (w w1 : World St) (h : Handle) (s' : St) :
  associate w = Done (Some h) w1 ->
  serve h (gpio_unregisterCallback pin) (svc w1) = (ROk tt, s') ->
  unregisterCallback pin w
  = Done tt (mkWorld (Some h) s' (trace w1 ++ [EvHal h (gpio_unregisterCallback pin)])).
Proof.
  intros Hacq Hserve.
  pose proof (associate_returns_stored _ _ _ Hacq) as Hstored.
  unfold unregisterCallback, bind. rewrite Hacq, invoke_live, Hserve.
  cbn. by rewrite Hstored.
Qed.

(** ** The callback bridge *)

Lemma new_Callback_pin (e : JNIEnv) (p : jint) : pin (new_Callback e p) = p.
Proof. reflexivity. Qed.

Lemma registerCallback_hands_bridge (e : JNIEnv) (p : jint) (w w1 : World St) (h : Handle) :
  associate w = Done (Some h) w1 ->
  trace (final (registerCallback e p w))
  = trace w1 ++ [EvHal h (gpio_registerCallback p (new_Callback e p))].
Proof.
  intros Hacq. unfold registerCallback, bind. rewrite Hacq, invoke_live.
  by destruct (serve h _ (svc w1)) as [[[]|] s'].
Qed.

(** C3. Invoking the bridge built for line [p] attaches the calling
    thread to the runtime, then calls the one static entry point
    [OdroidThingsManager.doCallback(I)V] with [p], and returns [Void()]:
    nothing else is done and no failure is reported. Two bridges for
    lines [p] and [q] invoked one after the other each deliver their own
    line identifier. *)
Theorem doCallback_delivers_own_pin (e1 e2 : JNIEnv) (p q : jint) (t1 t2 : nat) (w : World St) :
  let deliver vm t x :=
    [EvAttachCurrentThread vm t;
     EvCallStaticVoidMethod (mkEnv vm t) manager_class managed_doCallback x] in
  let w1 := mkWorld (sOdroidThings w) (svc w)
                    (trace w ++ deliver (env_vm e1) t1 p) in
  let w2 := mkWorld (sOdroidThings w) (svc w)
                    (trace w ++ deliver (env_vm e1) t1 p ++ deliver (env_vm e2) t2 q) in
  returned (doCallback (new_Callback e1 p) t1 w)
  = Some (mkCallback (env_vm e1) (mkEnv (env_vm e1) t1) p manager_class managed_doCallback,
          ROk tt)
  /\ final (doCallback (new_Callback e1 p) t1 w) = w1
  /\ returned (doCallback (new_Callback e2 q) t2 w1)
     = Some (mkCallback (env_vm e2) (mkEnv (env_vm e2) t2) q manager_class managed_doCallback,
             ROk tt)
  /\ final (doCallback (new_Callback e2 q) t2 w1) = w2.
Proof.
  cbn. repeat split.
  - by rewrite <- app_assoc.
  - by rewrite <- !app_assoc.
Qed.


(** ** Write marshalling *)

Lemma to_jbyteArray_final (buffer : hidl_vec) (len : jint) (w : World St) :
  final (to_jbyteArray buffer len w) = w.
Proof.
  unfold to_jbyteArray, bind, alloc, copy_bytes, crash, ret.
  destruct (len <? 0); [reflexivity|].
  by destruct (copy_loop _ _ _ _).
Qed.

Lemma to_hidl_vec_final (buffer : jbyteArray) (len : jint) (w : World St) :
  final (to_hidl_vec buffer len w) = w.
Proof.
  unfold to_hidl_vec, bind, alloc, copy_bytes, crash, ret.
  destruct (len <? 0); [reflexivity|].
  by destruct (copy_loop _ _ _ _).
Qed.

(** C4. For a caller array [b] and a length [N] within it, each write
    operation hands the service a vector of exactly [N] bytes whose
    element [i] is [b[i]] for every [i < N], together with [N] itself. *)
Theorem write_marshalling_preserves_bytes
    (idx reg : jint) (b : jbyteArray) (N : jint) (w w1 : World St) (h : Handle) :
  associate w = Done (Some h) w1 ->
  0 <= N <= Z.of_nat (length b) ->
  exists v : hidl_vec,
    Z.of_nat (length v) = N
    /\ (forall i : nat, (Z.of_nat i < N) -> v !! i = b !! i)
    /\ trace (final (writeI2cRegBuffer idx reg b N w))
       = trace w1 ++ [EvHal h (i2c_writeRegBuffer idx reg v N)]
    /\ trace (final (writeUart idx b N w))
       = trace w1 ++ [EvHal h (uart_write idx v N)]
    /\ trace (final (writeSpi idx b N w))
       = trace w1 ++ [EvHal h (spi_write idx v N)]
    /\ trace (final (transferSpi idx b N w))
       = trace w1 ++ [EvHal h (spi_transfer idx v N)].
Proof.
  intros Hacq HN. exists (take (Z.to_nat N) b).
  split; [rewrite length_take; lia|].
  split; [intros i Hi; apply lookup_take_lt; lia|].
  unfold writeI2cRegBuffer, writeUart, writeSpi, transferSpi, bind.
  rewrite Hacq, (to_hidl_vec_in_bounds b N w1 HN), !invoke_live.
  repeat split.
  - by destruct (serve h _ (svc w1)) as [[?|] ?].
  - by destruct (serve h _ (svc w1)) as [[?|] ?].
  - by destruct (serve h _ (svc w1)) as [[?|] ?].
  - destruct (serve h _ (svc w1)) as [[?|] ?]; cbn; [|done].
    by rewrite to_jbyteArray_final.
Qed.

(** ** The null handle *)

Lemma init_null_handle (w w1 : World St) :
  associate w = Done None w1 -> run n_init w = Done JVoid w1.
Proof.
  intros Hacq. cbn. unfold void, fmapM, init, bind. by rewrite Hacq.
Qed.

(** C6. When [associate] returns the null handle, no marshalling
    operation returns: none tests the handle or leaves early. With
    buffer lengths inside the caller's arrays, each of them reaches
    [hal->...] and dereferences the null handle, right after the failed
    acquisition. (With a length outside the array, the write operations
    fault in their copy loop, which comes before the call.) *)
Theorem null_handle_always_dereferenced (c : NativeCall) (w w1 : World St) :
  is_marshalling c = true ->
  associate w = Done None w1 ->
  (forall a w', run c w <> Done a w')
  /\ (buffers_in_bounds c -> run c w = Crash NullHandleDeref w1).
Proof.
  intros Hm Hacq.
  destruct c; try discriminate Hm; clear Hm;
    cbn [run buffers_in_bounds];
    unfold void, fmapM, getPinName, getListOf, setGpioDirection, setGpioValue,
      getGpioValue, setGpioActiveType, setEdgeTriggerType, registerCallback,
      unregisterCallback, openPwm, closePwm, setPwmEnable, setDutyCycle,
      setFrequency, openI2c, closeI2c, readI2cRegBuffer, writeI2cRegBuffer,
      openUart, closeUart, flush, sendBreak, setBaudrate, setDataSize,
      setHardwareFlowControl, setParity, setStopBits, readUart, writeUart,
      openSpi, closeSpi, setBitJustification, setBitsPerWord, setMode,
      setCsChange, setDelay, setFrequencySpi, readSpi, transferSpi, writeSpi,
      bind;
    rewrite Hacq; cbn;
    try (split; [intros a w'; discriminate | reflexivity]).
  all: split;
    [ intros a w'; destruct (to_hidl_vec _ _ w1); discriminate
    | intros Hb; by rewrite (to_hidl_vec_in_bounds _ _ w1 Hb) ].
Qed.

(** ** Read marshalling *)

Lemma readI2cRegBuffer_run (idx reg len : jint) (w w1 : World St) (h : Handle) :
  associate w = Done (Some h) w1 ->
  readI2cRegBuffer idx reg len w
  = let a := serve h (i2c_readRegBuffer idx reg len) (svc w1) in
    let w2 := mkWorld (sOdroidThings w1) a.2
                      (trace w1 ++ [EvHal h (i2c_readRegBuffer idx reg len)]) in
    if isOk a.1 then to_jbyteArray (i2c_read_callback a.1) len w2
    else Done [] w2.
Proof.
  intros Hacq. unfold readI2cRegBuffer, bind. rewrite Hacq, invoke_live.
  cbn. by destruct (isOk _).
Qed.

(** A failed transport is the one case the function answers with the
    empty array. *)
Lemma readI2cRegBuffer_transport_error
    (idx reg len : jint) (w w1 : World St) (h : Handle) (s' : St) :
  associate w = Done (Some h) w1 ->
  serve h (i2c_readRegBuffer idx reg len) (svc w1) = (RTransportError, s') ->
  returned (readI2cRegBuffer idx reg len w) = Some [].
Proof.
  intros Hacq Hs. by rewrite (readI2cRegBuffer_run _ _ _ _ _ _ Hacq), Hs.
Qed.

(** A status other than [Result::OK] over a working transport leaves
    [buffer] empty, and the loop then reads [buffer[0]]. *)
Lemma readI2cRegBuffer_not_OK
    (idx reg len : jint) (w w1 : World St) (h : Handle)
    (code : positive) (result : hidl_vec) (s' : St) :
  associate w = Done (Some h) w1 ->
  serve h (i2c_readRegBuffer idx reg len) (svc w1) = (ROk (NotOK code, result), s') ->
  0 < len ->
  readI2cRegBuffer idx reg len w
  = Crash (OutOfBoundsRead 0 0)
          (mkWorld (sOdroidThings w1) s'
                   (trace w1 ++ [EvHal h (i2c_readRegBuffer idx reg len)])).
Proof.
  intros Hacq Hs Hlen. rewrite (readI2cRegBuffer_run _ _ _ _ _ _ Hacq), Hs. cbn.
  by rewrite to_jbyteArray_out_of_bounds.
Qed.

(** The sibling [readUart] does answer a reported failure ([len <= 0])
    with the empty array. *)
Lemma readUart_failure_empty
    (idx len : jint) (w w1 : World St) (h : Handle)
    (retLength : Z) (result : hidl_vec) (s' : St) :
  associate w = Done (Some h) w1 ->
  serve h (uart_read idx len) (svc w1) = (ROk (retLength, result), s') ->
  retLength <= 0 ->
  returned (readUart idx len w) = Some [].
Proof.
  intros Hacq Hs Hlen. unfold readUart, bind.
  rewrite Hacq, invoke_live, Hs. cbn.
  destruct (Z.ltb_spec 0 retLength); [lia | reflexivity].
Qed.

(** X18. [readSpi] sizes its result by the caller's [len] and never
    reads the length the service reports: when the transport succeeds
    and the delivered vector holds at least [len] bytes ([0 <= len]),
    the result is the first [len] bytes of the vector, whatever
    [reported] is. *)
Theorem readSpi_returns_requested_length
    (idx len : jint) (w w1 : World St) (h : Handle)
    (reported : Z) (result : hidl_vec) (s' : St) :
  associate w = Done (Some h) w1 ->
  serve h (spi_read idx len) (svc w1) = (ROk (reported, result), s') ->
  0 <= len <= Z.of_nat (length result) ->
  readSpi idx len w
  = Done (take (Z.to_nat len) result)
         (mkWorld (sOdroidThings w1) s' (trace w1 ++ [EvHal h (spi_read idx len)]))
  /\ Z.of_nat (length (take (Z.to_nat len) result)) = len.
Proof.
  intros Hacq Hs Hr. split.
  - unfold readSpi, bind. rewrite Hacq, invoke_live, Hs. cbn.
    by rewrite to_jbyteArray_in_bounds.
  - rewrite length_take. lia.
Qed.

(** X19. [transferSpi] sends the first [len] bytes of the transmit
    array and sizes its result by [len] as well: when [len] lies within
    the transmit array, the transport succeeds and the delivered vector
    holds at least [len] bytes, the result is the first [len] bytes of
    that vector, whatever length the service reports. *)
Theorem transferSpi_returns_requested_length
    (idx len : jint) (txArray : jbyteArray) (w w1 : World St) (h : Handle)
    (reported : Z) (result : hidl_vec) (s' : St) :
  associate w = Done (Some h) w1 ->
  0 <= len <= Z.of_nat (length txArray) ->
  serve h (spi_transfer idx (take (Z.to_nat len) txArray) len) (svc w1)
    = (ROk (reported, result), s') ->
  0 <= len <= Z.of_nat (length result) ->
  transferSpi idx txArray len w
  = Done (take (Z.to_nat len) result)
         (mkWorld (sOdroidThings w1) s'
            (trace w1 ++
             [EvHal h (spi_transfer idx (take (Z.to_nat len) txArray) len)]))
  /\ Z.of_nat (length (take (Z.to_nat len) result)) = len.
Proof.
  intros Hacq Htx Hs Hr. split.
  - unfold transferSpi, bind.
    rewrite Hacq, (to_hidl_vec_in_bounds txArray len w1 Htx), invoke_live, Hs. cbn.
    by rewrite to_jbyteArray_in_bounds.
  - rewrite length_take. lia.
Qed.

(** The reported length plays no part at all: two replies that differ
    only in it are told apart by neither function. *)
Lemma spi_callback_ignores_len (len1 len2 : Z) (result : hidl_vec) :
  spi_callback (ROk (len1, result)) = spi_callback (ROk (len2, result)).
Proof. reflexivity. Qed.

(** With nothing delivered and a byte asked for, the loop of [readSpi]
    reads [rxBuffer[0]] of the empty vector. *)
Lemma readSpi_reads_empty_vector
    (idx len : jint) (w w1 : World St) (h : Handle) (reported : Z) (s' : St) :
  associate w = Done (Some h) w1 ->
  serve h (spi_read idx len) (svc w1) = (ROk (reported, []), s') ->
  0 < len ->
  readSpi idx len w
  = Crash (OutOfBoundsRead 0 0)
          (mkWorld (sOdroidThings w1) s' (trace w1 ++ [EvHal h (spi_read idx len)])).
Proof.
  intros Hacq Hs Hlen. unfold readSpi, bind.
  rewrite Hacq, invoke_live, Hs. cbn.
  by rewrite to_jbyteArray_out_of_bounds.
Qed.

(** ** The stored handle under the natives

    Only [disassociate] clears [sOdroidThings]: whatever a native does,
    returning or not, a stored handle is still stored afterwards, so
    every later acquisition finds the same connection. *)

Lemma to_hidl_vec_done (buffer : jbyteArray) (len : jint) (w w' : World St) (v : hidl_vec) :
  to_hidl_vec buffer len w = Done v w' -> w' = w.
Proof.
  intros H. pose proof (to_hidl_vec_final buffer len w) as Hf.
  by rewrite H in Hf.
Qed.

Lemma natives_keep_handle (c : NativeCall) (w : World St) (h : Handle) :
  sOdroidThings w = Some h ->
  sOdroidThings (final (run c w)) = Some h.
Proof.
  intros Hw.
  destruct c; cbn [run];
    unfold void, fmapM, init, getPinName, getListOf, setGpioDirection, setGpioValue,
      getGpioValue, setGpioActiveType, setEdgeTriggerType, registerCallback,
      unregisterCallback, openPwm, closePwm, setPwmEnable, setDutyCycle,
      setFrequency, openI2c, closeI2c, readI2cRegBuffer, writeI2cRegBuffer,
      openUart, closeUart, flush, sendBreak, setBaudrate, setDataSize,
      setHardwareFlowControl, setParity, setStopBits, readUart, writeUart,
      openSpi, closeSpi, setBitJustification, setBitsPerWord, setMode,
      setCsChange, setDelay, setFrequencySpi, readSpi, transferSpi, writeSpi,
      bind;
    rewrite (associate_stored w h Hw);
    try match goal with
      | |- context [to_hidl_vec ?b ?n w] =>
          let E := fresh in
          destruct (to_hidl_vec b n w) as [v w'|f w'] eqn:E;
          [ apply to_hidl_vec_done in E; subst w'
          | pose proof (to_hidl_vec_final b n w) as Hf; rewrite E in Hf;
            cbn in Hf; subst w'; exact Hw ]
      end;
    rewrite ?invoke_live; cbn;
    try exact Hw;
    try (destruct (serve h _ (svc w)) as [[a|] s']; cbn; try exact Hw).
  all: try (destruct a as [x y]; cbn).
  all: try (destruct (0 <? _); cbn; try exact Hw).
  all: try match goal with
      | |- context [to_jbyteArray ?b ?n ?w0] =>
          pose proof (to_jbyteArray_final b n w0) as Hf;
          destruct (to_jbyteArray b n w0); cbn in *; subst; exact Hw
      end.
Qed.

Lemma natives_then_associate (c : NativeCall) (w : World St) (h : Handle) :
  sOdroidThings w = Some h ->
  associate (final (run c w)) = Done (Some h) (final (run c w)).
Proof.
  intros Hw. apply associate_stored. by apply natives_keep_handle.
Qed.

(** * Further properties of the natives *)

(** ** Name lists *)

Lemma add_names_spec (pinNameList resultArray : list string) :
  add_names pinNameList resultArray = resultArray ++ (c_str <$> pinNameList).
Proof.
  revert resultArray.
  induction pinNameList as [|pin rest IH]; intros resultArray; simpl.
  - by rewrite app_nil_r.
  - rewrite IH. by rewrite <- app_assoc.
Qed.

(** X1. [getPinName] and [getListOf] return the names the service
    delivers, as many and in the same order, each cut at its first NUL
    character (what [NewStringUTF] reads of [c_str()]). *)
Theorem name_lists_keep_order
    (mode : jint) (w w1 : World St) (h : Handle)
    (names names' : list string) (s' s'' : St) :
  associate w = Done (Some h) w1 ->
  serve h getPinNameList (svc w1) = (ROk names, s') ->
  serve h (hal_getListOf mode) (svc w1) = (ROk names', s'') ->
  returned (getPinName w) = Some (c_str <$> names)
  /\ returned (getListOf mode w) = Some (c_str <$> names')
  /\ (forall l, returned (getPinName w) = Some l -> length l = length names)
  /\ (forall l, returned (getListOf mode w) = Some l -> length l = length names').
Proof.
  intros Hacq Hs Hs'.
  assert (H1 : returned (getPinName w) = Some (c_str <$> names)).
  { unfold getPinName, bind. rewrite Hacq, invoke_live, Hs. cbn.
    by rewrite add_names_spec. }
  assert (H2 : returned (getListOf mode w) = Some (c_str <$> names')).
  { unfold getListOf, bind. rewrite Hacq, invoke_live, Hs'. cbn.
    by rewrite add_names_spec. }
  repeat split; try done.
  - intros l. rewrite H1. intros [= <-]. by rewrite length_fmap.
  - intros l. rewrite H2. intros [= <-]. by rewrite length_fmap.
Qed.

(** ** Reads: what governs the size of the result *)

(** X2. [readUart] returns as many bytes as the service reports, not as
    many as the caller asked for: with a reported length within the
    delivered vector, the result is the first [retLength] bytes of it
    (none when [retLength <= 0]), whatever [len] was requested. *)
Theorem readUart_returns_reported_length
    (idx len : jint) (w w1 : World St) (h : Handle)
    (retLength : Z) (result : hidl_vec) (s' : St) :
  associate w = Done (Some h) w1 ->
  serve h (uart_read idx len) (svc w1) = (ROk (retLength, result), s') ->
  retLength <= Z.of_nat (length result) ->
  readUart idx len w
  = Done (take (Z.to_nat retLength) result)
         (mkWorld (sOdroidThings w1) s' (trace w1 ++ [EvHal h (uart_read idx len)])).
Proof.
  intros Hacq Hs Hle. unfold readUart, bind.
  rewrite Hacq, invoke_live, Hs. cbn.
  destruct (Z.ltb_spec 0 retLength) as [Hpos|Hneg].
  - by rewrite to_jbyteArray_in_bounds by lia.
  - unfold ret. do 2 f_equal.
    assert (Z.to_nat retLength = 0%nat) as -> by lia. done.
Qed.

(** X3. [readI2cRegBuffer], the service answering [Result::OK] with a
    vector of at least [len] bytes ([0 <= len]): the result is the first
    [len] bytes of the vector, and has length [len]. *)
Theorem readI2cRegBuffer_returns_prefix
    (idx reg len : jint) (w w1 : World St) (h : Handle)
    (result : hidl_vec) (s' : St) :
  associate w = Done (Some h) w1 ->
  serve h (i2c_readRegBuffer idx reg len) (svc w1) = (ROk (OK, result), s') ->
  0 <= len <= Z.of_nat (length result) ->
  readI2cRegBuffer idx reg len w
  = Done (take (Z.to_nat len) result)
         (mkWorld (sOdroidThings w1) s'
                  (trace w1 ++ [EvHal h (i2c_readRegBuffer idx reg len)]))
  /\ Z.of_nat (length (take (Z.to_nat len) result)) = len.
Proof.
  intros Hacq Hs Hlen. split.
  - rewrite (readI2cRegBuffer_run _ _ _ _ _ _ Hacq), Hs. cbn.
    by rewrite to_jbyteArray_in_bounds.
  - rewrite length_take. lia.
Qed.

(** X4. A failed transport is answered with the empty array by the three
    reads that look at [ret.isOk()]: [readI2cRegBuffer], [readSpi] and
    [transferSpi] return a zero-length array and the process goes on. *)
Theorem reads_empty_on_transport_error
    (idx reg len : jint) (txArray : jbyteArray) (w w1 : World St) (h : Handle)
    (s1 s2 s3 : St) :
  associate w = Done (Some h) w1 ->
  0 <= len <= Z.of_nat (length txArray) ->
  serve h (i2c_readRegBuffer idx reg len) (svc w1) = (RTransportError, s1) ->
  serve h (spi_read idx len) (svc w1) = (RTransportError, s2) ->
  serve h (spi_transfer idx (take (Z.to_nat len) txArray) len) (svc w1)
    = (RTransportError, s3) ->
  returned (readI2cRegBuffer idx reg len w) = Some []
  /\ returned (readSpi idx len w) = Some []
  /\ returned (transferSpi idx txArray len w) = Some [].
Proof.
  intros Hacq Htx H1 H2 H3. repeat split.
  - by rewrite (readI2cRegBuffer_run _ _ _ _ _ _ Hacq), H1.
  - unfold readSpi, bind. by rewrite Hacq, invoke_live, H2.
  - unfold transferSpi, bind.
    by rewrite Hacq, (to_hidl_vec_in_bounds txArray len w1 Htx), invoke_live, H3.
Qed.

Lemma to_jbyteArray_zero (buffer : hidl_vec) (w : World St) :
  to_jbyteArray buffer 0 w = Done [] w.
Proof. by destruct buffer. Qed.

(** X5. A read of zero bytes never touches the delivered vector:
    [readI2cRegBuffer] and [readSpi] with [length = 0] return the empty
    array whatever the service answers (a non-OK status, an empty
    vector, a failed transport). *)
Theorem zero_length_reads_are_empty
    (idx reg : jint) (w w1 : World St) (h : Handle) :
  associate w = Done (Some h) w1 ->
  returned (readI2cRegBuffer idx reg 0 w) = Some []
  /\ returned (readSpi idx 0 w) = Some [].
Proof.
  intros Hacq. split.
  - rewrite (readI2cRegBuffer_run _ _ _ _ _ _ Hacq). cbv zeta.
    destruct (serve h _ (svc w1)) as [[a|] s0]; cbn [fst snd isOk]; [|done].
    by rewrite to_jbyteArray_zero.
  - unfold readSpi, bind. rewrite Hacq, invoke_live.
    destruct (serve h _ (svc w1)) as [[a|] s0]; cbn [fst snd isOk]; [|done].
    by rewrite to_jbyteArray_zero.
Qed.

(** X6. [readUart] takes the reported length on trust: when the
    service reports a positive length and delivers an empty vector, the
    copy loop reads [buffer[0]] of that empty vector, and the call does
    not return an array. *)
Theorem readUart_reads_empty_vector
    (idx len : jint) (w w1 : World St) (h : Handle) (retLength : Z) (s' : St) :
  associate w = Done (Some h) w1 ->
  serve h (uart_read idx len) (svc w1) = (ROk (retLength, []), s') ->
  0 < retLength ->
  readUart idx len w
  = Crash (OutOfBoundsRead 0 0)
          (mkWorld (sOdroidThings w1) s' (trace w1 ++ [EvHal h (uart_read idx len)])).
Proof.
  intros Hacq Hs Hpos. unfold readUart, bind.
  rewrite Hacq, invoke_live, Hs. cbn.
  destruct (Z.ltb_spec 0 retLength) as [_|Hneg]; [|lia].
  by rewrite to_jbyteArray_out_of_bounds.
Qed.

(** ** Writes *)

(** X7. A negative length stops the four operations that marshal a
    caller array before anything is sent: the vector cannot be
    allocated, and the service sees no request. This holds with or
    without a handle. *)
Theorem negative_length_never_reaches_service
    (idx reg len : jint) (b : jbyteArray) (w w1 : World St) (hal : option Handle) :
  associate w = Done hal w1 ->
  len < 0 ->
  writeI2cRegBuffer idx reg b len w = Crash (BadArrayLength len) w1
  /\ writeUart idx b len w = Crash (BadArrayLength len) w1
  /\ writeSpi idx b len w = Crash (BadArrayLength len) w1
  /\ transferSpi idx b len w = Crash (BadArrayLength len) w1.
Proof.
  intros Hacq Hlen.
  unfold writeI2cRegBuffer, writeUart, writeSpi, transferSpi, to_hidl_vec, bind.
  rewrite Hacq, (alloc_negative len w1 Hlen). done.
Qed.


(** ** One native, one request *)

(** X9. A native acquires the handle and then sends the service at most
    one request, through that handle: past the acquisition its trace
    grows by nothing (the native is [_init], or it stopped before the
    call) or by exactly one request. It makes no second call, no retry,
    and writes no log line of its own. *)
Theorem natives_send_at_most_one_request
    (c : NativeCall) (w w1 : World St) (hal : option Handle) :
  associate w = Done hal w1 ->
  trace (final (run c w)) = trace w1
  \/ exists h r, hal = Some h
                 /\ trace (final (run c w)) = trace w1 ++ [EvHal h r].
Proof.
  intros Hacq.
  destruct c; cbn [run];
    unfold void, fmapM, init, getPinName, getListOf, setGpioDirection, setGpioValue,
      getGpioValue, setGpioActiveType, setEdgeTriggerType, registerCallback,
      unregisterCallback, openPwm, closePwm, setPwmEnable, setDutyCycle,
      setFrequency, openI2c, closeI2c, readI2cRegBuffer, writeI2cRegBuffer,
      openUart, closeUart, flush, sendBreak, setBaudrate, setDataSize,
      setHardwareFlowControl, setParity, setStopBits, readUart, writeUart,
      openSpi, closeSpi, setBitJustification, setBitsPerWord, setMode,
      setCsChange, setDelay, setFrequencySpi, readSpi, transferSpi, writeSpi,
      bind;
    rewrite Hacq;
    try match goal with
      | |- context [to_hidl_vec ?b ?n w1] =>
          let E := fresh in
          destruct (to_hidl_vec b n w1) as [v w'|f w'] eqn:E;
          [ apply to_hidl_vec_done in E; subst w'
          | pose proof (to_hidl_vec_final b n w1) as Hf; rewrite E in Hf;
            cbn in Hf; subst w'; by left ]
      end;
    (destruct hal as [h|]; [| by left]);
    try (by left);
    right; exists h; eexists; (split; [reflexivity|]);
    rewrite invoke_live;
    destruct (serve h _ (svc w1)) as [[a|] s']; cbn; try reflexivity.
  all: try (destruct a as [x y]; cbn).
  all: try (destruct (0 <? _); cbn; try reflexivity).
  all: try match goal with
      | |- context [to_jbyteArray ?b ?n ?w0] =>
          pose proof (to_jbyteArray_final b n w0) as Hf;
          destruct (to_jbyteArray b n w0); cbn in *; subst; reflexivity
      end.
Qed.

(** ** The bridge over many events *)

Lemma fire_spec (threads : list nat) :
  forall (self : Callback) (w : World St),
  exists self',
    fire self threads w
    = Done self' (mkWorld (sOdroidThings w) (svc w)
                          (trace w ++ deliveries self threads))
    /\ jvm self' = jvm self /\ pin self' = pin self
    /\ thingsManagerClass self' = thingsManagerClass self
    /\ cb self' = cb self.
Proof.
  induction threads as [|t rest IH]; intros self w.
  - exists self. cbn. rewrite app_nil_r. by destruct w.
  - cbn -[deliveries].
    set (self1 := mkCallback (jvm self) (mkEnv (jvm self) t) (pin self)
                             (thingsManagerClass self) (cb self)).
    destruct (IH self1 (mkWorld (sOdroidThings w) (svc w)
                ((trace w ++ [EvAttachCurrentThread (jvm self) t]) ++
                 [EvCallStaticVoidMethod (mkEnv (jvm self) t)
                    (thingsManagerClass self) (cb self) (pin self)])))
      as (self' & Hrun & Hjvm & Hpin & Hcls & Hcb).
    exists self'. unfold bind, doCallback, emit, ret in *. cbn in *.
    rewrite Hrun. repeat split; try done.
    do 2 f_equal. rewrite <- !app_assoc. reflexivity.
Qed.

(** X10. A bridge keeps delivering its own line: however many times and
    on whichever threads the bridge built for [p] is invoked, every
    invocation attaches that thread to the virtual machine the bridge
    was built in and calls [doCallback(I)V] with [p]; only the [env]
    member changes, the pin never does. *)
Theorem bridge_delivers_pin_every_time
    (e : JNIEnv) (p : jint) (threads : list nat) (w : World St) :
  exists self',
    fire (new_Callback e p) threads w
    = Done self'
        (mkWorld (sOdroidThings w) (svc w)
           (trace w ++
            flat_map (fun t =>
                        [EvAttachCurrentThread (env_vm e) t;
                         EvCallStaticVoidMethod (mkEnv (env_vm e) t)
                           manager_class managed_doCallback p])
                     threads))
    /\ pin self' = p.
Proof.
  destruct (fire_spec threads (new_Callback e p) w)
    as (self' & Hrun & _ & Hpin & _ & _).
  exists self'. split; [exact Hrun | exact Hpin].
Qed.

(** X11. [registerCallback(env, pin)] builds a new bridge at every call
    and hands it to the service under the same [pin] the bridge carries:
    the one request sent is [gpio_registerCallback pin bridge], and the
    bridge, once invoked on a thread, calls back with that [pin]. *)
Theorem registered_bridge_calls_back_with_its_pin
    (e : JNIEnv) (p : jint) (w w1 : World St) (h : Handle) :
  associate w = Done (Some h) w1 ->
  exists bridge,
    trace (final (registerCallback e p w))
    = trace w1 ++ [EvHal h (gpio_registerCallback p bridge)]
    /\ pin bridge = p
    /\ forall (t : nat) (w' : World St),
         trace (final (doCallback bridge t w'))
         = trace w' ++ [EvAttachCurrentThread (env_vm e) t;
                        EvCallStaticVoidMethod (mkEnv (env_vm e) t)
                          manager_class managed_doCallback p].
Proof.
  intros Hacq. exists (new_Callback e p). split; [|split].
  - unfold registerCallback, bind. rewrite Hacq, invoke_live.
    by destruct (serve h _ (svc w1)) as [[[]|] s'].
  - reflexivity.
  - intros t w'. cbn. by rewrite <- app_assoc.
Qed.

(** ** Acquisition over many calls *)

(** X12. A failed acquisition is not remembered: while [getService]
    fails, each of [n] calls of [associate] asks it again, logs one more
    line and returns null. *)
Theorem associate_failure_not_cached (n : nat) (w : World St) :
  (forall s, (getService s).1 = None) ->
  sOdroidThings w = None ->
  exists w',
    run_ops (replicate n Acquire) w = Done (replicate n None) w'
    /\ sOdroidThings w' = None
    /\ trace w' = trace w ++ concat (replicate n (connect_log None)).
Proof.
  intros Hdown. revert w.
  induction n as [|n IH]; intros w Hw.
  - exists w. cbn. by rewrite app_nil_r.
  - cbn [replicate run_ops]. unfold bind.
    rewrite (associate_empty w Hw), (Hdown (svc w)).
    destruct (IH (mkWorld None (getService (svc w)).2
                          (trace w ++ connect_log None)) eq_refl)
      as (w' & Hrun & Hnone & Htrace).
    exists w'. rewrite Hrun. cbn. repeat split; try done.
    rewrite Htrace. cbn. by rewrite <- app_assoc.
Qed.

(** X13. Once a handle is stored, any number of acquisitions return it
    and do nothing else: no call to [getService], no log line, no change
    of state. *)
Theorem associate_stored_any_number (n : nat) (w : World St) (h : Handle) :
  sOdroidThings w = Some h ->
  run_ops (replicate n Acquire) w = Done (replicate n (Some h)) w.
Proof.
  intros Hw. induction n as [|n IH]; [reflexivity|].
  cbn [replicate run_ops]. unfold bind.
  by rewrite (associate_stored w h Hw), IH.
Qed.

(** X17. No native invalidates the handle: with a handle stored, it is
    still stored when the native ends, returned or not, and the next
    acquisition hands out the same connection without asking
    [getService]. *)
Theorem natives_never_clear_handle (c : NativeCall) (w : World St) (h : Handle) :
  sOdroidThings w = Some h ->
  sOdroidThings (final (run c w)) = Some h
  /\ associate (final (run c w)) = Done (Some h) (final (run c w)).
Proof.
  intros Hw.
  pose proof (natives_keep_handle c w h Hw) as Hkept.
  split; [exact Hkept|]. by apply associate_stored.
Qed.

End Shim.

(** * The shim against the simulated service *)

Local Abbreviation f_associate := (associate Fake.state Fake.getService).
Local Abbreviation f_readI2cRegBuffer :=
  (readI2cRegBuffer Fake.state Fake.getService Fake.serve).
Local Abbreviation f_writeI2cRegBuffer :=
  (writeI2cRegBuffer Fake.state Fake.getService Fake.serve).
Local Abbreviation f_readUart := (readUart Fake.state Fake.getService Fake.serve).
Local Abbreviation f_writeUart := (writeUart Fake.state Fake.getService Fake.serve).
Local Abbreviation f_readSpi := (readSpi Fake.state Fake.getService Fake.serve).
Local Abbreviation f_writeSpi := (writeSpi Fake.state Fake.getService Fake.serve).
Local Abbreviation f_transferSpi := (transferSpi Fake.state Fake.getService Fake.serve).
Local Abbreviation f_run := (run Fake.state Fake.getService Fake.serve).

(** C2. [readI2cRegBuffer(0, 0, 4)] against a service that reports a
    status other than [Result::OK] through a working transport: the
    function does not give the empty array. [buffer] is left empty, the
    branch taken is the one of [ret.isOk()], and the copy loop reads
    [buffer[0]] outside the vector. *)
Theorem readI2cRegBuffer_failed_status_not_empty :
  Fake.serve 1%nat (i2c_readRegBuffer 0 0 4) (svc holding)
    = (ROk (NotOK 1, []), Fake.fresh [])
  /\ f_readI2cRegBuffer 0 0 4 holding
     = Crash (OutOfBoundsRead 0 0) (after (i2c_readRegBuffer 0 0 4))
  /\ returned (f_readI2cRegBuffer 0 0 4 holding) <> Some [].
Proof. repeat split. discriminate. Qed.

(** C9. [readI2cRegBuffer(0, 0, 1)], the transport succeeding and the
    status callback reporting a non-OK [Result]: the local buffer has no
    element, and the first access of the copy loop, at index 0, is
    already outside it. *)
Theorem readI2cRegBuffer_reads_past_empty_buffer :
  let r := (Fake.serve 1%nat (i2c_readRegBuffer 0 0 1) (svc holding)).1 in
  isOk r = true
  /\ length (i2c_read_callback r) = 0%nat
  /\ copy_loop (i2c_read_callback r) 0 (Z.to_nat 1) (replicate (Z.to_nat 1) x00)
     = inl (OutOfBoundsRead 0 0)
  /\ f_readI2cRegBuffer 0 0 1 holding
     = Crash (OutOfBoundsRead 0 0) (after (i2c_readRegBuffer 0 0 1)).
Proof. repeat split. Qed.

(** C10. [readSpi(0, 4)] with a successful transport and a service that
    delivers an empty vector (reporting length 0): no array of 4 bytes
    is returned. [rxBuffer] is the empty vector, the branch of
    [ret.isOk()] is taken, and the copy loop reads [rxBuffer[0]]
    outside it. The same holds for [transferSpi]. *)
Theorem readSpi_empty_reply_no_array :
  Fake.serve 1%nat (spi_read 0 4) (svc holding) = (ROk (0, []), Fake.fresh [])
  /\ f_readSpi 0 4 holding
     = Crash (OutOfBoundsRead 0 0) (after (spi_read 0 4))
  /\ ~ (exists a, returned (f_readSpi 0 4 holding) = Some a
                  /\ Z.of_nat (length a) = 4)
  /\ ~ (exists a, returned (f_transferSpi 0 [x01; x02; x03; x04] 4 holding) = Some a
                  /\ Z.of_nat (length a) = 4).
Proof.
  repeat split.
  - intros (a & Ha & _). discriminate Ha.
  - intros (a & Ha & _). discriminate Ha.
Qed.

(** ** Instances of the general statements *)

Lemma associate_twice_same_connection_witness :
  let w := Fake.start (Fake.fresh [Some 1%nat; Some 2%nat]) in
  let w1 := mkWorld (Some 1%nat) (Fake.fresh [Some 2%nat]) [EvGetService (Some 1%nat)] in
  let w2 := mkWorld None (Fake.fresh [Some 2%nat]) [EvGetService (Some 1%nat)] in
  f_associate w = Done (Some 1%nat) w1
  /\ f_associate w1 = Done (Some 1%nat) w1
  /\ disassociate Fake.state w1 = Done tt w2
  /\ f_associate w2
     = Done (Some 2%nat)
            (mkWorld (Some 2%nat) (Fake.fresh [])
                     [EvGetService (Some 1%nat); EvGetService (Some 2%nat)]).
Proof.
  intros w w1 w2. split; [reflexivity|].
  apply (associate_twice_same_connection Fake.state Fake.getService w w1 1%nat).
  reflexivity.
Defined.

Lemma associate_failure_logged_not_raised_witness :
  let w := Fake.start (Fake.fresh []) in
  sOdroidThings w = None
  /\ (Fake.getService (svc w)).1 = None
  /\ f_associate w
     = Done None
            (mkWorld None (Fake.fresh [])
                     [EvGetService None;
                      EvLogE LOG_TAG "Unable to get IOdroidThings interface."])
  /\ forall (ops : list HandleOp) (w0 : World Fake.state),
       exists hs w', run_ops Fake.state Fake.getService ops w0 = Done hs w'.
Proof.
  intros w. split; [reflexivity|]. split; [reflexivity|].
  apply (associate_failure_logged_not_raised Fake.state Fake.getService w);
    reflexivity.
Defined.

Lemma unregisterCallback_forwards_witness :
  let w := Fake.start (Fake.fresh [Some 1%nat]) in
  let w1 := mkWorld (Some 1%nat) (Fake.fresh []) [EvGetService (Some 1%nat)] in
  f_associate w = Done (Some 1%nat) w1
  /\ Fake.serve 1%nat (gpio_unregisterCallback 7) (svc w1) = (ROk tt, Fake.fresh [])
  /\ unregisterCallback Fake.state Fake.getService Fake.serve 7 w
     = Done tt (mkWorld (Some 1%nat) (Fake.fresh [])
                        [EvGetService (Some 1%nat);
                         EvHal 1%nat (gpio_unregisterCallback 7)]).
Proof.
  intros w w1. split; [reflexivity|]. split; [reflexivity|].
  apply (unregisterCallback_forwards Fake.state Fake.getService Fake.serve
           7 w w1 1%nat (Fake.fresh [])); reflexivity.
Defined.

Lemma write_marshalling_preserves_bytes_witness :
  let b := [x0a; x0b; x0c] in
  f_associate holding = Done (Some 1%nat) holding
  /\ 0 <= 2 <= Z.of_nat (length b)
  /\ exists v : hidl_vec,
       Z.of_nat (length v) = 2
       /\ (forall i : nat, Z.of_nat i < 2 -> v !! i = b !! i)
       /\ trace (final (f_writeI2cRegBuffer 0 5 b 2 holding))
          = trace holding ++ [EvHal 1%nat (i2c_writeRegBuffer 0 5 v 2)]
       /\ trace (final (f_writeUart 0 b 2 holding))
          = trace holding ++ [EvHal 1%nat (uart_write 0 v 2)]
       /\ trace (final (f_writeSpi 0 b 2 holding))
          = trace holding ++ [EvHal 1%nat (spi_write 0 v 2)]
       /\ trace (final (f_transferSpi 0 b 2 holding))
          = trace holding ++ [EvHal 1%nat (spi_transfer 0 v 2)].
Proof.
  intros b. split; [reflexivity|]. split; [simpl; lia|].
  apply (write_marshalling_preserves_bytes Fake.state Fake.getService Fake.serve
           0 5 b 2 holding holding 1%nat); [reflexivity | simpl; lia].
Defined.

Lemma null_handle_always_dereferenced_witness :
  let w := Fake.start (Fake.fresh []) in
  let w1 := mkWorld None (Fake.fresh [])
                    [EvGetService None;
                     EvLogE LOG_TAG "Unable to get IOdroidThings interface."] in
  is_marshalling (n_getGpioValue 3) = true
  /\ f_associate w = Done None w1
  /\ (forall a w', f_run (n_getGpioValue 3) w <> Done a w')
  /\ (buffers_in_bounds (n_getGpioValue 3) ->
      f_run (n_getGpioValue 3) w = Crash NullHandleDeref w1).
Proof.
  intros w w1. split; [reflexivity|]. split; [reflexivity|].
  apply (null_handle_always_dereferenced Fake.state Fake.getService Fake.serve
           (n_getGpioValue 3) w w1); reflexivity.
Defined.

(** ** Round trip *)

Lemma take_all (b : list byte) : take (Z.to_nat (Z.of_nat (length b))) b = b.
Proof. rewrite Nat2Z.id. by apply take_ge. Qed.

Lemma to_jbyteArray_all (b : list byte) (w : World Fake.state) :
  to_jbyteArray Fake.state b (Z.of_nat (length b)) w = Done b w.
Proof. rewrite to_jbyteArray_in_bounds by lia. by rewrite take_all. Qed.

(** C5. Against the simulated service, with a live handle and a working
    transport, writing [b] with its length [N] and then reading [N]
    bytes back from the same line returns [b]: for an I2C register, for
    a UART port with nothing queued before, and for an SPI device. *)
Theorem write_then_read_round_trip
    (b : list byte) (idx reg : jint) (w w1 : World Fake.state) (h : Handle) :
  f_associate w = Done (Some h) w1 ->
  Fake.transport_up (svc w1) = true ->
  default [] (Fake.uart_fifo (svc w1) !! idx) = [] ->
  let N := Z.of_nat (length b) in
  (exists w2, f_writeI2cRegBuffer idx reg b N w = Done JNI_TRUE w2
              /\ returned (f_readI2cRegBuffer idx reg N w2) = Some b)
  /\ (exists w2, f_writeUart idx b N w = Done N w2
                 /\ returned (f_readUart idx N w2) = Some b)
  /\ (exists w2, f_writeSpi idx b N w = Done JNI_TRUE w2
                 /\ returned (f_readSpi idx N w2) = Some b).
Proof.
  intros Hacq Hup Hq N.
  pose proof (associate_returns_stored _ _ _ _ _ Hacq) as Hstored.
  assert (HN : 0 <= N <= Z.of_nat (length b)) by (unfold N; lia).
  repeat split.
  - eexists. split.
    + unfold writeI2cRegBuffer, bind.
      rewrite Hacq, (to_hidl_vec_in_bounds _ b N w1 HN), invoke_live.
      unfold Fake.serve. rewrite Hup. cbn. reflexivity.
    + unfold readI2cRegBuffer, bind.
      rewrite (associate_stored _ _ _ h) by done.
      rewrite invoke_live. unfold Fake.serve. cbn. rewrite Hup. cbn.
      unfold Fake.i2c_read. cbn. rewrite lookup_insert_eq.
      unfold N. rewrite !take_all.
      destruct (Z.leb_spec 0 (Z.of_nat (length b))); [|lia].
      destruct (Z.leb_spec (Z.of_nat (length b)) (Z.of_nat (length b))); [|lia].
      cbn. by rewrite to_jbyteArray_all.
  - eexists. split.
    + unfold writeUart, bind.
      rewrite Hacq, (to_hidl_vec_in_bounds _ b N w1 HN), invoke_live.
      unfold Fake.serve. rewrite Hup. cbn.
      unfold N. rewrite !take_all. reflexivity.
    + unfold readUart, bind.
      rewrite (associate_stored _ _ _ h) by done.
      rewrite invoke_live. unfold Fake.serve. cbn. rewrite Hup. cbn.
      rewrite lookup_insert_eq. cbn. rewrite Hq. cbn.
      unfold N. rewrite !take_all.
      destruct (Z.ltb_spec 0 (Z.of_nat (length b))) as [Hpos|Hzero].
      * by rewrite to_jbyteArray_all.
      * destruct b; [reflexivity | simpl in Hzero; lia].
  - eexists. split.
    + unfold writeSpi, bind.
      rewrite Hacq, (to_hidl_vec_in_bounds _ b N w1 HN), invoke_live.
      unfold Fake.serve. rewrite Hup. cbn. reflexivity.
    + unfold readSpi, bind.
      rewrite (associate_stored _ _ _ h) by done.
      rewrite invoke_live. unfold Fake.serve. cbn. rewrite Hup. cbn.
      rewrite lookup_insert_eq. cbn.
      unfold N. rewrite !take_all. by rewrite to_jbyteArray_all.
Qed.

Lemma write_then_read_round_trip_witness :
  let b := [x0a; x0b; x0c] in
  f_associate holding = Done (Some 1%nat) holding
  /\ Fake.transport_up (svc holding) = true
  /\ default [] (Fake.uart_fifo (svc holding) !! 4) = []
  /\ (exists w2, f_writeI2cRegBuffer 4 9 b 3 holding = Done JNI_TRUE w2
                 /\ returned (f_readI2cRegBuffer 4 9 3 w2) = Some b)
  /\ (exists w2, f_writeUart 4 b 3 holding = Done 3 w2
                 /\ returned (f_readUart 4 3 w2) = Some b)
  /\ (exists w2, f_writeSpi 4 b 3 holding = Done JNI_TRUE w2
                 /\ returned (f_readSpi 4 3 w2) = Some b).
Proof.
  intros b. split; [reflexivity|]. split; [reflexivity|]. split; [reflexivity|].
  apply (write_then_read_round_trip b 4 9 holding holding 1%nat); reflexivity.
Defined.

(** * The registration tables, checked *)

Lemma method_of_Some (f : Native) (m : JNINativeMethod) :
  method_of f = Some m -> m ∈ all_methods /\ fnPtr m = f.
Proof.
  unfold method_of. intros H.
  destruct (list_find _ all_methods) as [[i m']|] eqn:E; [|discriminate].
  injection H as ->. apply list_find_Some in E as (Hi & Hf & _).
  split; [|exact Hf]. apply list_elem_of_lookup. by exists i.
Qed.

Lemma method_of_signature (c : NativeCall) :
  exists m, method_of (native_of c) = Some m
            /\ signature m
               = descriptor (jarg_type <$> args c) (result_type (native_of c)).
Proof.
  destruct c; eexists; (split; [vm_compute; reflexivity | reflexivity]).
Qed.

(** X14. Every native is registered under a JNI signature that spells
    its C prototype: for each call, the table entry pointing to its
    function has the descriptor of the argument types the function
    takes (after [JNIEnv*] and [jobject]) and of its return type. *)
Theorem registered_signatures_match_prototypes (c : NativeCall) :
  exists m, m ∈ all_methods
            /\ fnPtr m = native_of c
            /\ signature m
               = descriptor (jarg_type <$> args c) (result_type (native_of c)).
Proof.
  destruct (method_of_signature c) as (m & Hm & Hsig).
  exists m. destruct (method_of_Some _ _ Hm). done.
Qed.

(** X15. [register_google_android_things_odroid] registers six distinct
    classes; between them the tables name every static native function
    exactly once (none is left out, none is bound twice), and no class
    gets two methods of the same name. The value returned is the status
    of the last registration, [OdroidSpi]: the five before are not
    looked at. *)
Theorem registration_covers_every_native_once (status : string -> Z) :
  let classes := (registered status).2.*1 in
  let methods := concat (registered status).2.*2 in
  (registered status).1 = status "com/google/android/things/odroid/OdroidSpi"
  /\ NoDup classes
  /\ length methods = 41%nat
  /\ NoDup (fnPtr <$> methods)
  /\ (forall f : Native, f ∈ fnPtr <$> methods)
  /\ Forall (fun table => NoDup (name <$> table)) (registered status).2.*2.
Proof.
  cbv zeta. split; [reflexivity|].
  split; [by apply (bool_decide_unpack _); vm_compute|].
  split; [reflexivity|].
  split; [by apply (bool_decide_unpack _); vm_compute|].
  split.
  - intros f. apply (bool_decide_unpack _). by destruct f; vm_compute.
  - apply (bool_decide_unpack _). by vm_compute.
Qed.

Section ResultTypes.

Context {St : Type}.
Variable getService : St -> option Handle * St.
Variable serve : Handle -> forall r : HalReq, St -> Return (reply r) * St.

Lemma fmapM_returns {A B} (f : A -> B) (m : M St A) (w w' : World St) (v : B) :
  fmapM St f m w = Done v w' -> exists a, v = f a.
Proof.
  unfold fmapM, bind, ret. destruct (m w) as [a w0|]; [|discriminate].
  intros [= <- _]. by exists a.
Qed.

(** X16. What a native returns has the type its registered signature
    announces: [void], [boolean], [int], [byte[]] or [ArrayList],
    whenever it returns at all. *)
Theorem natives_return_registered_type
    (c : NativeCall) (w w' : World St) (v : jvalue) :
  run St getService serve c w = Done v w' ->
  value_type v = result_type (native_of c)
  /\ exists m, m ∈ all_methods /\ fnPtr m = native_of c
               /\ exists ps, signature m
                             = descriptor ps (value_type v).
Proof.
  intros Hrun.
  assert (Hty : value_type v = result_type (native_of c)).
  { destruct c; cbn [run] in Hrun; unfold void in Hrun;
      apply fmapM_returns in Hrun as [a ->]; reflexivity. }
  split; [exact Hty|].
  destruct (method_of_signature c) as (m & Hm & Hsig).
  destruct (method_of_Some _ _ Hm) as [Hin Hf].
  exists m. repeat split; try done.
  exists (jarg_type <$> args c). by rewrite Hty.
Qed.

End ResultTypes.

(** ** Instances of the further properties *)

Local Abbreviation c_associate := (associate Canned.state Canned.getService).
Local Abbreviation c_readI2cRegBuffer :=
  (readI2cRegBuffer Canned.state Canned.getService Canned.serve).
Local Abbreviation c_readUart := (readUart Canned.state Canned.getService Canned.serve).
Local Abbreviation c_readSpi := (readSpi Canned.state Canned.getService Canned.serve).
Local Abbreviation c_transferSpi :=
  (transferSpi Canned.state Canned.getService Canned.serve).
Local Abbreviation c_writeI2cRegBuffer :=
  (writeI2cRegBuffer Canned.state Canned.getService Canned.serve).
Local Abbreviation c_writeUart := (writeUart Canned.state Canned.getService Canned.serve).
Local Abbreviation c_writeSpi := (writeSpi Canned.state Canned.getService Canned.serve).

Lemma name_lists_keep_order_witness :
  let w := Canned.live Canned.ready in
  c_associate w = Done (Some 1%nat) w
  /\ Canned.serve 1%nat getPinNameList (svc w) = (ROk ["GPIO1"; "I2C-1"], Canned.ready)
  /\ Canned.serve 1%nat (hal_getListOf 2) (svc w) = (ROk ["GPIO1"; "I2C-1"], Canned.ready)
  /\ returned (getPinName Canned.state Canned.getService Canned.serve w)
     = Some ["GPIO1"; "I2C-1"]
  /\ returned (getListOf Canned.state Canned.getService Canned.serve 2 w)
     = Some ["GPIO1"; "I2C-1"].
Proof.
  intros w. do 3 (split; [reflexivity|]).
  destruct (name_lists_keep_order Canned.state Canned.getService Canned.serve
              2 w w 1%nat ["GPIO1"; "I2C-1"] ["GPIO1"; "I2C-1"]
              Canned.ready Canned.ready eq_refl eq_refl eq_refl)
    as (H1 & H2 & _).
  split; [exact H1 | exact H2].
Defined.

(** Two bytes asked for, five reported and delivered: five returned. *)
Lemma readUart_returns_reported_length_witness :
  let w := Canned.live Canned.ready in
  c_associate w = Done (Some 1%nat) w
  /\ Canned.serve 1%nat (uart_read 0 2) (svc w)
     = (ROk (5, [x01; x02; x03; x04; x05]), Canned.ready)
  /\ 5 <= Z.of_nat (length [x01; x02; x03; x04; x05])
  /\ c_readUart 0 2 w
     = Done [x01; x02; x03; x04; x05]
            (mkWorld (Some 1%nat) Canned.ready [EvHal 1%nat (uart_read 0 2)]).
Proof.
  intros w. do 2 (split; [reflexivity|]). split; [simpl; lia|].
  apply (readUart_returns_reported_length Canned.state Canned.getService
           Canned.serve 0 2 w w 1%nat 5 [x01; x02; x03; x04; x05] Canned.ready);
    [reflexivity | reflexivity | simpl; lia].
Defined.

Lemma readI2cRegBuffer_returns_prefix_witness :
  let w := Canned.live Canned.ready in
  c_associate w = Done (Some 1%nat) w
  /\ Canned.serve 1%nat (i2c_readRegBuffer 0 7 2) (svc w)
     = (ROk (OK, [x0a; x0b; x0c]), Canned.ready)
  /\ 0 <= 2 <= Z.of_nat (length [x0a; x0b; x0c])
  /\ c_readI2cRegBuffer 0 7 2 w
     = Done [x0a; x0b]
            (mkWorld (Some 1%nat) Canned.ready [EvHal 1%nat (i2c_readRegBuffer 0 7 2)])
  /\ Z.of_nat (length (take (Z.to_nat 2) [x0a; x0b; x0c])) = 2.
Proof.
  intros w. do 2 (split; [reflexivity|]). split; [simpl; lia|].
  apply (readI2cRegBuffer_returns_prefix Canned.state Canned.getService
           Canned.serve 0 7 2 w w 1%nat [x0a; x0b; x0c] Canned.ready);
    [reflexivity | reflexivity | simpl; lia].
Defined.

Lemma reads_empty_on_transport_error_witness :
  let w := Canned.live Canned.down in
  let tx := [x01; x02] in
  c_associate w = Done (Some 1%nat) w
  /\ 0 <= 2 <= Z.of_nat (length tx)
  /\ Canned.serve 1%nat (i2c_readRegBuffer 0 7 2) (svc w) = (RTransportError, Canned.down)
  /\ Canned.serve 1%nat (spi_read 0 2) (svc w) = (RTransportError, Canned.down)
  /\ Canned.serve 1%nat (spi_transfer 0 (take (Z.to_nat 2) tx) 2) (svc w)
     = (RTransportError, Canned.down)
  /\ returned (c_readI2cRegBuffer 0 7 2 w) = Some []
  /\ returned (c_readSpi 0 2 w) = Some []
  /\ returned (c_transferSpi 0 tx 2 w) = Some [].
Proof.
  intros w tx. split; [reflexivity|]. split; [simpl; lia|].
  do 3 (split; [reflexivity|]).
  apply (reads_empty_on_transport_error Canned.state Canned.getService
           Canned.serve 0 7 2 tx w w 1%nat Canned.down Canned.down Canned.down);
    first [reflexivity | simpl; lia].
Defined.

(** A non-OK status and no byte delivered: still the empty array. *)
Lemma zero_length_reads_are_empty_witness :
  f_associate holding = Done (Some 1%nat) holding
  /\ returned (f_readI2cRegBuffer 0 0 0 holding) = Some []
  /\ returned (f_readSpi 0 0 holding) = Some [].
Proof.
  split; [reflexivity|].
  apply (zero_length_reads_are_empty Fake.state Fake.getService Fake.serve
           0 0 holding holding 1%nat); reflexivity.
Defined.

Lemma readUart_reads_empty_vector_witness :
  let w := Canned.live Canned.overstating in
  c_associate w = Done (Some 1%nat) w
  /\ Canned.serve 1%nat (uart_read 0 4) (svc w) = (ROk (4, []), Canned.overstating)
  /\ 0 < 4
  /\ c_readUart 0 4 w
     = Crash (OutOfBoundsRead 0 0)
             (mkWorld (Some 1%nat) Canned.overstating [EvHal 1%nat (uart_read 0 4)]).
Proof.
  intros w. do 2 (split; [reflexivity|]). split; [lia|].
  apply (readUart_reads_empty_vector Canned.state Canned.getService Canned.serve
           0 4 w w 1%nat 4 Canned.overstating);
    [reflexivity | reflexivity | lia].
Defined.

(** Two bytes asked for, three reported and delivered: two returned. *)
Lemma readSpi_returns_requested_length_witness :
  let w := Canned.live Canned.ready in
  c_associate w = Done (Some 1%nat) w
  /\ Canned.serve 1%nat (spi_read 0 2) (svc w) = (ROk (3, [x0a; x0b; x0c]), Canned.ready)
  /\ 0 <= 2 <= Z.of_nat (length [x0a; x0b; x0c])
  /\ c_readSpi 0 2 w
     = Done [x0a; x0b]
            (mkWorld (Some 1%nat) Canned.ready [EvHal 1%nat (spi_read 0 2)])
  /\ Z.of_nat (length (take (Z.to_nat 2) [x0a; x0b; x0c])) = 2.
Proof.
  intros w. do 2 (split; [reflexivity|]). split; [simpl; lia|].
  apply (readSpi_returns_requested_length Canned.state Canned.getService
           Canned.serve 0 2 w w 1%nat 3 [x0a; x0b; x0c] Canned.ready);
    [reflexivity | reflexivity | simpl; lia].
Defined.

Lemma transferSpi_returns_requested_length_witness :
  let w := Canned.live Canned.ready in
  let tx := [x01; x02; x03] in
  c_associate w = Done (Some 1%nat) w
  /\ 0 <= 2 <= Z.of_nat (length tx)
  /\ Canned.serve 1%nat (spi_transfer 0 (take (Z.to_nat 2) tx) 2) (svc w)
     = (ROk (3, [x0a; x0b; x0c]), Canned.ready)
  /\ 0 <= 2 <= Z.of_nat (length [x0a; x0b; x0c])
  /\ c_transferSpi 0 tx 2 w
     = Done [x0a; x0b]
            (mkWorld (Some 1%nat) Canned.ready [EvHal 1%nat (spi_transfer 0 [x01; x02] 2)])
  /\ Z.of_nat (length (take (Z.to_nat 2) [x0a; x0b; x0c])) = 2.
Proof.
  intros w tx. split; [reflexivity|]. split; [simpl; lia|].
  split; [reflexivity|]. split; [simpl; lia|].
  apply (transferSpi_returns_requested_length Canned.state Canned.getService
           Canned.serve 0 2 tx w w 1%nat 3 [x0a; x0b; x0c] Canned.ready);
    first [reflexivity | simpl; lia].
Defined.

Lemma negative_length_never_reaches_service_witness :
  let b := [x01; x02] in
  f_associate holding = Done (Some 1%nat) holding
  /\ -1 < 0
  /\ f_writeI2cRegBuffer 0 7 b (-1) holding = Crash (BadArrayLength (-1)) holding
  /\ f_writeUart 0 b (-1) holding = Crash (BadArrayLength (-1)) holding
  /\ f_writeSpi 0 b (-1) holding = Crash (BadArrayLength (-1)) holding
  /\ f_transferSpi 0 b (-1) holding = Crash (BadArrayLength (-1)) holding.
Proof.
  intros b. split; [reflexivity|]. split; [lia|].
  apply (negative_length_never_reaches_service Fake.state Fake.getService
           Fake.serve 0 7 (-1) b holding holding (Some 1%nat));
    [reflexivity | lia].
Defined.


Lemma natives_send_at_most_one_request_witness :
  f_associate holding = Done (Some 1%nat) holding
  /\ (trace (final (f_run (n_setBaudrate 0 115200) holding)) = trace holding
      \/ exists h r, Some 1%nat = Some h
                     /\ trace (final (f_run (n_setBaudrate 0 115200) holding))
                        = trace holding ++ [EvHal h r]).
Proof.
  split; [reflexivity|].
  apply (natives_send_at_most_one_request Fake.state Fake.getService Fake.serve
           (n_setBaudrate 0 115200) holding holding (Some 1%nat)).
  reflexivity.
Defined.

Lemma natives_never_clear_handle_witness :
  sOdroidThings holding = Some 1%nat
  /\ sOdroidThings (final (f_run (n_readSpi 0 4) holding)) = Some 1%nat
  /\ f_associate (final (f_run (n_readSpi 0 4) holding))
     = Done (Some 1%nat) (final (f_run (n_readSpi 0 4) holding)).
Proof.
  split; [reflexivity|].
  apply (natives_never_clear_handle Fake.state Fake.getService Fake.serve
           (n_readSpi 0 4) holding 1%nat).
  reflexivity.
Defined.

Lemma registered_bridge_calls_back_with_its_pin_witness :
  let e := mkEnv 1%nat 0%nat in
  f_associate holding = Done (Some 1%nat) holding
  /\ exists bridge,
       trace (final (registerCallback Fake.state Fake.getService Fake.serve e 17 holding))
       = trace holding ++ [EvHal 1%nat (gpio_registerCallback 17 bridge)]
       /\ pin bridge = 17
       /\ forall (t : nat) (w' : World Fake.state),
            trace (final (doCallback Fake.state bridge t w'))
            = trace w' ++ [EvAttachCurrentThread (env_vm e) t;
                           EvCallStaticVoidMethod (mkEnv (env_vm e) t)
                             manager_class managed_doCallback 17].
Proof.
  intros e. split; [reflexivity|].
  apply (registered_bridge_calls_back_with_its_pin Fake.state Fake.getService
           Fake.serve e 17 holding holding 1%nat).
  reflexivity.
Defined.

Lemma associate_failure_not_cached_witness :
  let w : World unit := mkWorld None tt [] in
  (forall s, (never_up s).1 = None)
  /\ sOdroidThings w = None
  /\ exists w',
       run_ops unit never_up (replicate 3 Acquire) w = Done (replicate 3 None) w'
       /\ sOdroidThings w' = None
       /\ trace w' = trace w ++ concat (replicate 3 (connect_log None)).
Proof.
  intros w. split; [reflexivity|]. split; [reflexivity|].
  apply (associate_failure_not_cached unit never_up 3 w); reflexivity.
Defined.

Lemma associate_stored_any_number_witness :
  sOdroidThings holding = Some 1%nat
  /\ run_ops Fake.state Fake.getService (replicate 3 Acquire) holding
     = Done (replicate 3 (Some 1%nat)) holding.
Proof.
  split; [reflexivity|].
  apply (associate_stored_any_number Fake.state Fake.getService 3 holding 1%nat).
  reflexivity.
Defined.

Lemma natives_return_registered_type_witness :
  let w' := mkWorld (Some 1%nat) (Fake.fresh []) [EvHal 1%nat (gpio_getValue 3)] in
  f_run (n_getGpioValue 3) holding = Done (JBoolean true) w'
  /\ value_type (JBoolean true) = result_type (native_of (n_getGpioValue 3))
  /\ exists m, m ∈ all_methods /\ fnPtr m = native_of (n_getGpioValue 3)
               /\ exists ps, signature m = descriptor ps (value_type (JBoolean true)).
Proof.
  intros w'. split; [reflexivity|].
  apply (natives_return_registered_type Fake.getService Fake.serve
           (n_getGpioValue 3) holding w' (JBoolean true)).
  reflexivity.
Defined.
